(** * nano-clone: the line buffer, load/save, key dispatch and scrolling

    A shallow embedding of [nano-clone.c].  The single global [EditorState E]
    of the C program is threaded explicitly through every function.

    Conventions of the embedding:
    - a C [int] is a [Z]; counts and lengths stay far below [INT_MAX].  The
      scroll, whose inputs the properties leave free, is also given on
      32-bit ints with their wrap-around ([Int32.editor_scroll]), and shown
      to agree with the plain one wherever its sums fit;
    - a line ([char *], NUL terminated) is the list of the bytes before its
      terminator; [cstr] reads a buffer the way [strlen]/[strdup] do, up to
      the first NUL;
    - the array [E.lines] with its count [E.numlines] is a list, [numlines]
      being its length;
    - a function that would read outside the line array, or leave a buffer
      without terminator, returns [None]; [malloc]/[realloc] never fail. *)

From Stdlib Require Import ZArith Ascii String Lia.
From stdpp Require Import base numbers option list strings.

Local Open Scope Z_scope.

(** ** Data model *)

Abbreviation line := (list ascii).

Definition NUL : ascii := Ascii.zero.
Definition LF : ascii := Ascii.ascii_of_nat 10.
Definition CR : ascii := Ascii.ascii_of_nat 13.

(** [str "ab"] is the line holding the bytes of the literal. *)
Definition str (s : string) : line := list_ascii_of_string s.

(** The bytes of a buffer up to, not including, its first NUL. *)
Fixpoint cstr (buf : list ascii) : line :=
  match buf with
  | [] => []
  | c :: rest => if Ascii.eqb c NUL then [] else c :: cstr rest
  end.

Definition strdup (s : list ascii) : line := cstr s.

Definition strlen (l : line) : Z := Z.of_nat (length l).

Record EditorState := mkEditorState {
  lines : list line;
  row : Z;
  col : Z;
  topline : Z;
  leftcol : Z;
  screenrows : Z;
  screencols : Z;
  filename : option string;
  modified : bool
}.

Definition numlines (E : EditorState) : Z := Z.of_nat (length (lines E)).

Definition set_lines (ls : list line) (E : EditorState) : EditorState :=
  mkEditorState ls (row E) (col E) (topline E) (leftcol E)
                (screenrows E) (screencols E) (filename E) (modified E).

Definition set_row (r : Z) (E : EditorState) : EditorState :=
  mkEditorState (lines E) r (col E) (topline E) (leftcol E)
                (screenrows E) (screencols E) (filename E) (modified E).

Definition set_col (c : Z) (E : EditorState) : EditorState :=
  mkEditorState (lines E) (row E) c (topline E) (leftcol E)
                (screenrows E) (screencols E) (filename E) (modified E).

Definition set_topline (t : Z) (E : EditorState) : EditorState :=
  mkEditorState (lines E) (row E) (col E) t (leftcol E)
                (screenrows E) (screencols E) (filename E) (modified E).

Definition set_leftcol (c : Z) (E : EditorState) : EditorState :=
  mkEditorState (lines E) (row E) (col E) (topline E) c
                (screenrows E) (screencols E) (filename E) (modified E).

Definition set_filename (f : option string) (E : EditorState) : EditorState :=
  mkEditorState (lines E) (row E) (col E) (topline E) (leftcol E)
                (screenrows E) (screencols E) f (modified E).

Definition set_modified (m : bool) (E : EditorState) : EditorState :=
  mkEditorState (lines E) (row E) (col E) (topline E) (leftcol E)
                (screenrows E) (screencols E) (filename E) m.

(** [E.lines[i]]: [None] when [i] is outside [0 .. numlines-1]. *)
Definition line_at (E : EditorState) (i : Z) : option line :=
  if i <? 0 then None else lines E !! Z.to_nat i.

(** ** Line buffer *)

(** [editor_insert_line(at, s)] *)
Definition editor_insert_line (at_ : Z) (s : list ascii) (E : EditorState)
  : EditorState :=
  if (at_ <? 0) || (numlines E <? at_) then E
  else
    let n := Z.to_nat at_ in
    set_modified true
      (set_lines (take n (lines E) ++ strdup s :: drop n (lines E)) E).

(** [editor_delete_line(at)] *)
Definition editor_delete_line (at_ : Z) (E : EditorState) : EditorState :=
  if (at_ <? 0) || (numlines E <=? at_) then E
  else
    let E1 := set_modified true
                (set_lines (delete (Z.to_nat at_) (lines E)) E) in
    if numlines E1 =? 0 then editor_insert_line 0 [] E1 else E1.

(** [editor_insert_char(ch)]: the new buffer is the first [col] bytes, [ch],
    and the rest of the line with its terminator. *)
Definition editor_insert_char (ch : ascii) (E : EditorState)
  : option EditorState :=
  if (row E <? 0) || (numlines E <=? row E) then Some E
  else
    ln ← line_at E (row E);
    let len := strlen ln in
    let c0 := if col E <? 0 then 0 else col E in
    let c1 := if len <? c0 then len else c0 in
    let k := Z.to_nat c1 in
    let newline := cstr (take k ln ++ ch :: drop k ln) in
    Some (set_modified true
            (set_col (c1 + 1)
               (set_lines (<[Z.to_nat (row E) := newline]> (lines E)) E))).

(** [editor_delete_char()].  With [col > len] the second [memcpy] would get a
    negative size or the new buffer would miss its terminator: [None]. *)
Definition editor_delete_char (E : EditorState) : option EditorState :=
  if (row E <? 0) || (numlines E <=? row E) then Some E
  else if (col E =? 0) && (row E =? 0) then Some E
  else
    ln ← line_at E (row E);
    let len := strlen ln in
    if 0 <? col E then
      if len <? col E then None
      else
        let newline :=
          take (Z.to_nat (col E - 1)) ln ++ drop (Z.to_nat (col E)) ln in
        Some (set_modified true
                (set_col (col E - 1)
                   (set_lines (<[Z.to_nat (row E) := newline]> (lines E)) E)))
    else
      prev ← line_at E (row E - 1);
      let prev_len := strlen prev in
      let newline := prev ++ ln in
      let p := Z.to_nat (row E - 1) in
      Some (set_modified true
              (set_col prev_len
                 (set_row (row E - 1)
                    (set_lines (<[p := newline]> (delete p (lines E))) E)))).

(** The key codes and the error value of the external header <ncurses.h>,
    which the program includes; the values are those of ncurses. *)
Definition KEY_DOWN : Z := 258.
Definition KEY_UP : Z := 259.
Definition KEY_LEFT : Z := 260.
Definition KEY_RIGHT : Z := 261.
Definition KEY_BACKSPACE : Z := 263.
Definition ERR : Z := -1.

(** [if (E.col > strlen(E.lines[E.row])) E.col = strlen(E.lines[E.row]);] *)
Definition clamp_col (E : EditorState) : option EditorState :=
  ln ← line_at E (row E);
  Some (if strlen ln <? col E then set_col (strlen ln) E else E).

(** [editor_move_cursor(key)] *)
Definition editor_move_cursor (key : Z) (E : EditorState)
  : option EditorState :=
  if key =? KEY_UP then
    clamp_col (if 0 <? row E then set_row (row E - 1) E else E)
  else if key =? KEY_DOWN then
    clamp_col (if row E <? numlines E - 1 then set_row (row E + 1) E else E)
  else if key =? KEY_LEFT then
    if 0 <? col E then Some (set_col (col E - 1) E)
    else if 0 <? row E then
      ln ← line_at E (row E - 1);
      Some (set_col (strlen ln) (set_row (row E - 1) E))
    else Some E
  else if key =? KEY_RIGHT then
    ln ← line_at E (row E);
    if col E <? strlen ln then Some (set_col (col E + 1) E)
    else if row E <? numlines E - 1 then Some (set_col 0 (set_row (row E + 1) E))
    else Some E
  else Some E.

(** The body of [case '\r': case '\n':] in [editor_process_key]. *)
Definition editor_insert_newline (E : EditorState) : option EditorState :=
  if row E <? numlines E - 1 then
    clamp_col (set_row (row E + 1) E)
  else
    Some (set_col 0
            (set_row (row E + 1)
               (editor_insert_line (numlines E) [] E))).

(** ** Viewport *)

(** [editor_scroll()] over unbounded integers: what the code computes
    wherever its two sums fit an [int] (lemma [scroll_int_exact]).  The
    function on 32-bit ints follows in [Int32]. *)
Definition editor_scroll (E : EditorState) : EditorState :=
  let E1 := if row E <? topline E then set_topline (row E) E else E in
  let E2 := if topline E1 + screenrows E1 <=? row E1
            then set_topline (row E1 - screenrows E1 + 1) E1 else E1 in
  let E3 := if col E2 <? leftcol E2 then set_leftcol (col E2) E2 else E2 in
  if leftcol E3 + screencols E3 <=? col E3
  then set_leftcol (col E3 - screencols E3 + 1) E3 else E3.

(** The same function on the [int] of the machine: 32 bits, two's
    complement, a sum or difference out of range wrapping around (what the
    compiled program does; the C standard leaves it undefined). *)
Module Int32.

Definition INT_MIN : Z := -2147483648.


Definition wrap (z : Z) : Z := (z - INT_MIN) mod 4294967296 + INT_MIN.

Definition add (a b : Z) : Z := wrap (a + b).
Definition sub (a b : Z) : Z := wrap (a - b).


(** [editor_scroll()] *)
Definition editor_scroll (E : EditorState) : EditorState :=
  let E1 := if row E <? topline E then set_topline (row E) E else E in
  let E2 := if add (topline E1) (screenrows E1) <=? row E1
            then set_topline (add (sub (row E1) (screenrows E1)) 1) E1
            else E1 in
  let E3 := if col E2 <? leftcol E2 then set_leftcol (col E2) E2 else E2 in
  if add (leftcol E3) (screencols E3) <=? col E3
  then set_leftcol (add (sub (col E3) (screencols E3)) 1) E3 else E3.

(** What [editor_scroll] does to one offset [o], for the cursor coordinate
    [p] and the screen size [n]. *)
Definition axis (p o n : Z) : Z :=
  let o1 := if p <? o then p else o in
  if add o1 n <=? p then add (sub p n) 1 else o1.

End Int32.

(** ** The outside world

    What the program reaches through libc and ncurses: the pending input
    events, the status line, the files and the terminal size. *)

Inductive entry :=
| Missing                      (* no such file: [fopen] fails with ENOENT *)
| Denied                       (* [fopen] fails with another error *)
| File (data : list ascii).

Record World := mkWorld {
  keys : list Z;               (* events the next calls of [getch] return *)
  shown : list string;         (* status messages written, latest first *)
  disk : string → entry;
  room : Z;                    (* bytes the disk still accepts *)
  maxy : Z;                    (* terminal rows *)
  maxx : Z                     (* terminal columns *)
}.

Definition set_keys (ks : list Z) (W : World) : World :=
  mkWorld ks (shown W) (disk W) (room W) (maxy W) (maxx W).

Definition set_file (name : string) (e : entry) (W : World) : World :=
  mkWorld (keys W) (shown W)
          (λ n, if String.eqb n name then e else disk W n)
          (room W) (maxy W) (maxx W).

Definition set_room (r : Z) (W : World) : World :=
  mkWorld (keys W) (shown W) (disk W) r (maxy W) (maxx W).

(** [getch()]: the next event, [ERR] when there is none. *)
Definition getch (W : World) : Z * World :=
  match keys W with
  | [] => (ERR, W)
  | k :: ks => (k, set_keys ks W)
  end.

(** [editor_status_message(msg)] *)
Definition editor_status_message (msg : string) (W : World) : World :=
  mkWorld (keys W) (msg :: shown W) (disk W) (room W) (maxy W) (maxx W).

(** [fopen(name, "w")]: the file is created or truncated; [None] is the
    null pointer. *)
Definition fopen_w (name : string) (W : World) : option World :=
  match disk W name with
  | Denied => None
  | _ => Some (set_file name (File []) W)
  end.

(** [fprintf(fp, "%s\n", l)] on the stream of [name]: the bytes are appended
    when the disk has room for them; the result is the number of bytes
    written, negative on failure. *)
Definition fprintf_line (name : string) (l : line) (W : World) : Z * World :=
  let bytes := l ++ [LF] in
  match disk W name with
  | File data =>
      if strlen bytes <=? room W
      then (strlen bytes,
            set_room (room W - strlen bytes)
                     (set_file name (File (data ++ bytes)) W))
      else (-1, W)
  | _ => (-1, W)
  end.

(** ** Load and save *)

(** [editor_save_file()]: the status, the editor state and the world. *)
Definition editor_save_file (E : EditorState) (W : World)
  : Z * EditorState * World :=
  let E1 := match filename E with
            | None => set_filename (Some "untitled.txt"%string) E
            | Some _ => E
            end in
  let name := default "untitled.txt"%string (filename E1) in
  match fopen_w name W with
  | None =>
      (-1, E1, editor_status_message "Error: Cannot open file for writing!" W)
  | Some W1 =>
      let W2 := foldl (λ W' l, (fprintf_line name l W').2) W1 (lines E1) in
      (0, set_modified false E1,
       editor_status_message "File saved successfully!" W2)
  end.

(** One call of [getline]: the bytes up to and including the next LF, or up
    to the end of the stream, and the rest of the stream; [None] is -1. *)
Fixpoint getline (fp : list ascii) : option (list ascii * list ascii) :=
  match fp with
  | [] => None
  | c :: rest =>
      if Ascii.eqb c LF then Some ([c], rest)
      else match getline rest with
           | None => Some ([c], [])
           | Some (l, rest') => Some (c :: l, rest')
           end
  end.

(** The buffers the successive calls of [getline] return until -1. *)
Fixpoint getlines (fp : list ascii) : list (list ascii) :=
  match fp with
  | [] => []
  | c :: rest =>
      if Ascii.eqb c LF then [c] :: getlines rest
      else match getlines rest with
           | [] => [[c]]
           | l :: ls => (c :: l) :: ls
           end
  end.

(** [if (len > 0 && (line[len-1] == '\n' || line[len-1] == '\r'))
      line[len-1] = '\0';] *)
Definition strip_eol (buf : list ascii) : list ascii :=
  let len := length buf in
  match buf !! (len - 1)%nat with
  | Some c =>
      if (0 <? Z.of_nat len) && (Ascii.eqb c LF || Ascii.eqb c CR)
      then <[(len - 1)%nat := NUL]> buf else buf
  | None => buf
  end.

(** [editor_load_file(filename)] *)
Definition editor_load_file (name : string) (E : EditorState) (W : World)
  : EditorState * World :=
  match disk W name with
  | Missing => (editor_insert_line 0 [] E, W)
  | Denied =>
      (editor_insert_line 0 [] E, editor_status_message "Error opening file." W)
  | File data =>
      let E1 := foldl (λ E' buf, editor_insert_line (numlines E') (strip_eol buf) E')
                      E (getlines data) in
      (if numlines E1 =? 0 then editor_insert_line 0 [] E1 else E1, W)
  end.

(** [editor_init(filename)] *)
Definition editor_init (name : option string) (W : World)
  : EditorState * World :=
  let E0 := mkEditorState [] 0 0 0 0 (maxy W - 3) (maxx W) None false in
  let '(E1, W1) :=
    match name with
    | Some f => editor_load_file f (set_filename (Some f) E0) W
    | None => (editor_insert_line 0 [] E0, W)
    end in
  (E1, editor_status_message "HELP: Ctrl+O = Save | Ctrl+X = Exit" W1).

(** ** Key dispatch *)

Inductive outcome :=
| Exited (W : World)                       (* [exit(0)] was reached *)
| Running (E : EditorState) (W : World).   (* the function returned *)

(** [isprint] in the C locale, and the conversion of [int] to [char]. *)
Definition isprint (c : Z) : bool := (32 <=? c) && (c <=? 126).
Definition char_of_int (c : Z) : ascii := ascii_of_N (Z.to_N (c mod 256)).

Definition exit_prompt : string :=
  "File modified. Ctrl+O to save, Ctrl+X to exit without saving.".

(** [editor_process_key(c)] *)
Definition editor_process_key (c : Z) (E : EditorState) (W : World)
  : option outcome :=
  if c =? 24 then
    if modified E then
      let W1 := editor_status_message exit_prompt W in
      let '(c2, W2) := getch W1 in
      if negb (c2 =? 24) then Some (Running E W2) else Some (Exited W2)
    else Some (Exited W)
  else if c =? 15 then
    let '(_, E1, W1) := editor_save_file E W in Some (Running E1 W1)
  else if (c =? KEY_UP) || (c =? KEY_DOWN) || (c =? KEY_LEFT) || (c =? KEY_RIGHT)
  then E' ← editor_move_cursor c E; Some (Running E' W)
  else if (c =? KEY_BACKSPACE) || (c =? 127)
  then E' ← editor_delete_char E; Some (Running E' W)
  else if (c =? 13) || (c =? 10)
  then E' ← editor_insert_newline E; Some (Running E' W)
  else if isprint c
  then E' ← editor_insert_char (char_of_int c) E; Some (Running E' W)
  else Some (Running E W).

(** What [editor_refresh_screen()] does to the editor state: the scroll.
    The painting leaves the state alone but can read [status] beyond its
    end; the refresh with its painting is [refresh_and_paint] below. *)
Definition editor_refresh_screen (E : EditorState) : EditorState :=
  editor_scroll E.

(** One turn of the loop of [main], followed on the editor state alone (the
    turn with its painting is [main_turn_painted]). *)
Definition main_turn (E : EditorState) (W : World) : option outcome :=
  let E1 := editor_refresh_screen E in
  let '(c, W1) := getch W in
  editor_process_key c E1 W1.

(** At most [n] turns of the loop of [main]. *)
Fixpoint main_loop (n : nat) (E : EditorState) (W : World) : option outcome :=
  match n with
  | O => Some (Running E W)
  | S n' =>
      o ← main_turn E W;
      match o with
      | Exited W' => Some (Exited W')
      | Running E' W' => main_loop n' E' W'
      end
  end.

(** ** Valid states *)

(** A line is a C string: no NUL among its bytes. *)
Definition no_nul (l : line) : bool :=
  forallb (λ c, negb (Ascii.eqb c NUL)) l.

(** The cursor invariant, as a check. *)
Definition cursor_ok (E : EditorState) : bool :=
  match line_at E (row E) with
  | Some ln => (0 <=? col E) && (col E <=? strlen ln)
  | None => false
  end.

Definition valid (E : EditorState) : bool :=
  forallb no_nul (lines E) && cursor_ok E.

(** The cursor invariant, as the spec words it. *)
Definition cursor_in_bounds (E : EditorState) : Prop :=
  0 ≤ row E ≤ numlines E - 1 ∧
  ∃ ln, line_at E (row E) = Some ln ∧ 0 ≤ col E ≤ strlen ln.





(** What a valid session looks like after a key: ended, or valid still. *)
Definition outcome_valid (o : outcome) : Prop :=
  match o with
  | Exited _ => True
  | Running E _ => valid E = true
  end.

(** No line feed inside a line. *)
Definition no_lf (l : line) : bool :=
  forallb (λ c, negb (Ascii.eqb c LF)) l.

(** The byte image of a document: each line followed by a line feed. *)
Definition file_image (ls : list line) : list ascii :=
  concat (map (λ l, l ++ [LF]) ls).

(** The name [editor_save_file] opens. *)
Definition save_name (E : EditorState) : string :=
  default "untitled.txt"%string (filename E).

(** ** States used as examples *)

Definition doc (ls : list line) (r c : Z) : EditorState :=
  mkEditorState ls r c 0 0 21 80 None true.

Definition doc_ab_cd : EditorState := doc [str "ab"; str "cd"] 1 0.
Definition doc_hello : EditorState := doc [str "hello"] 0 5.
Definition doc_abc_de : EditorState := doc [str "abc"; str ""; str "de"] 0 0.



(** A terminal of 24 by 80 with the given pending keys, no file on the
    disk and [r] bytes of room. *)
Definition world (ks : list Z) (r : Z) : World :=
  mkWorld ks [] (λ _, Missing) r 24 80.

(** ** Painting

    What the program hands to [addch], row by row.  Attributes and the
    way the terminal renders a byte are left to ncurses. *)

(** [line[j]] in the buffer of a line: its bytes, then the terminator;
    [None] outside the buffer. *)
Definition char_at (ln : line) (j : Z) : option ascii :=
  if j <? 0 then None
  else if j =? strlen ln then Some NUL
  else ln !! Z.to_nat j.

(** [for (i = 0; i < n; i++) addch(buf[from + i]);] with [rd] reading
    [buf]: the bytes written. *)
Fixpoint addch_run (rd : Z → option ascii) (from : Z) (n : nat)
  : option (list ascii) :=
  match n with
  | O => Some []
  | S n' =>
      c ← rd from;
      cs ← addch_run rd (from + 1) n';
      Some (c :: cs)
  end.

(** The body of the loop of [editor_draw_rows] for screen row [y]. *)
Definition draw_row (E : EditorState) (y : Z) : option (list ascii) :=
  let filerow := topline E + y in
  if filerow <? numlines E then
    ln ← line_at E filerow;
    let len := strlen ln in
    if leftcol E <? len then
      let drawlen := len - leftcol E in
      let drawlen := if screencols E <? drawlen then screencols E else drawlen in
      addch_run (char_at ln) (leftcol E) (Z.to_nat drawlen)
    else Some []
  else Some [].

Fixpoint draw_rows_from (E : EditorState) (y : Z) (n : nat)
  : option (list (list ascii)) :=
  match n with
  | O => Some []
  | S n' =>
      r ← draw_row E y;
      rs ← draw_rows_from E (y + 1) n';
      Some (r :: rs)
  end.

(** [editor_draw_rows()]: the text of the screen rows 0 .. screenrows-1. *)
Definition editor_draw_rows (E : EditorState) : option (list (list ascii)) :=
  draw_rows_from E 0 (Z.to_nat (screenrows E)).

(** The text [snprintf] formats in [editor_draw_status_bar]. *)
Definition status_text (E : EditorState) : list ascii :=
  let flag := if modified E then str "(modified)" else [] in
  match filename E with
  | Some f => str "File: " ++ str f ++ str " " ++ flag
  | None => str "File: (No Name) " ++ flag
  end.

(** [status[i]] after [snprintf(status, 80, ...)] of [full], for [i] below
    the length [snprintf] returns: 79 bytes at most are stored, then the
    terminator; the array ends at 80. *)
Definition status_at (full : list ascii) (i : Z) : option ascii :=
  if 80 <=? i then None
  else if 79 <=? i then Some NUL
  else full !! Z.to_nat i.

(** [editor_draw_status_bar()]: the cells of the status row, and the help
    line. *)
Definition editor_draw_status_bar (E : EditorState)
  : option (list ascii * string) :=
  let full := status_text E in
  let len := strlen full in
  let rlen := if screencols E <? len then screencols E else len in
  cells ← addch_run (status_at full) 0 (Z.to_nat rlen);
  Some (cells ++ replicate (Z.to_nat (screencols E - rlen)) " "%char,
        "^X Exit  ^O Save"%string).

(** What a refresh puts on the screen. *)
Record Screen := mkScreen {
  text_rows : list (list ascii);
  status_bar : list ascii;
  help_line : string;
  cursor_at : Z * Z            (* the arguments of the last [move] *)
}.

(** [editor_refresh_screen()] with its painting: the state after the scroll
    and the screen; [None] when the painting reads outside a buffer. *)
Definition refresh_and_paint (E : EditorState) : option (EditorState * Screen) :=
  let E1 := editor_scroll E in
  rows ← editor_draw_rows E1;
  bar ← editor_draw_status_bar E1;
  Some (E1, mkScreen rows bar.1 bar.2
                     (row E1 - topline E1, col E1 - leftcol E1)).

(** One turn of the loop of [main], painting included. *)
Definition main_turn_painted (E : EditorState) (W : World) : option outcome :=
  p ← refresh_and_paint E;
  let '(c, W1) := getch W in
  editor_process_key c p.1 W1.

(** At most [n] turns of the loop of [main], painting included. *)
Fixpoint main_loop_painted (n : nat) (E : EditorState) (W : World)
  : option outcome :=
  match n with
  | O => Some (Running E W)
  | S n' =>
      o ← main_turn_painted E W;
      match o with
      | Exited W' => Some (Exited W')
      | Running E' W' => main_loop_painted n' E' W'
      end
  end.

(** ** More vocabulary for the properties *)

(** No line of the document holds a line feed. *)
Definition lf_free (E : EditorState) : bool := forallb no_lf (lines E).





(** The same terminal with every name of the disk holding [data]. *)
Definition world_with_file (data : list ascii) : World :=
  mkWorld [] [] (λ _, File data) 100 24 80.

(** ** Basic facts *)

(** Decide the integer tests that the context settles. *)
Ltac zdec :=
  repeat match goal with
  | |- context [?a <? ?b] =>
      first [ replace (a <? b) with true by (symmetry; apply Z.ltb_lt; lia)
            | replace (a <? b) with false by (symmetry; apply Z.ltb_ge; lia) ]
  | |- context [?a <=? ?b] =>
      first [ replace (a <=? b) with true by (symmetry; apply Z.leb_le; lia)
            | replace (a <=? b) with false by (symmetry; apply Z.leb_gt; lia) ]
  | |- context [?a =? ?b] =>
      first [ replace (a =? b) with true by (symmetry; apply Z.eqb_eq; lia)
            | replace (a =? b) with false by (symmetry; apply Z.eqb_neq; lia) ]
  end; simpl.

(** Split on the integer tests that remain. *)
Ltac zbool :=
  zdec;
  repeat match goal with
  | |- context [?a <? ?b] => destruct (Z.ltb_spec a b); try lia
  | |- context [?a <=? ?b] => destruct (Z.leb_spec a b); try lia
  | |- context [?a =? ?b] => destruct (Z.eqb_spec a b); try lia
  end; simpl.

Lemma no_nul_Forall l : no_nul l = true ↔ Forall (λ c, c ≠ NUL) l.
Proof.
  unfold no_nul. rewrite forallb_forall, Forall_forall.
  split; intros H c Hc.
  - apply list_elem_of_In, H in Hc. apply negb_true_iff, Ascii.eqb_neq in Hc. done.
  - apply negb_true_iff, Ascii.eqb_neq, H, list_elem_of_In, Hc.
Qed.

Lemma no_nul_app l1 l2 : no_nul (l1 ++ l2) = no_nul l1 && no_nul l2.
Proof. unfold no_nul. apply forallb_app. Qed.

Lemma no_nul_take n l : no_nul l = true → no_nul (take n l) = true.
Proof. rewrite !no_nul_Forall. apply Forall_take. Qed.

Lemma no_nul_drop n l : no_nul l = true → no_nul (drop n l) = true.
Proof. rewrite !no_nul_Forall. apply Forall_drop. Qed.

Lemma cstr_no_nul buf : no_nul (cstr buf) = true.
Proof.
  induction buf as [|c buf IH]; simpl; [done|].
  destruct (Ascii.eqb c NUL) eqn:Hc; simpl; [done|].
  by rewrite Hc, IH.
Qed.

Lemma cstr_id l : no_nul l = true → cstr l = l.
Proof.
  induction l as [|c l IH]; simpl; [done|].
  intros [Hc Hl]%andb_true_iff. apply negb_true_iff in Hc.
  rewrite Hc. by rewrite IH.
Qed.

Lemma cstr_app_nul l rest : no_nul l = true → cstr (l ++ NUL :: rest) = l.
Proof.
  induction l as [|c l IH]; simpl; [done|].
  intros [Hc Hl]%andb_true_iff. apply negb_true_iff in Hc.
  rewrite Hc. by rewrite IH.
Qed.

Lemma lines_ok_Forall (ls : list line) :
  forallb no_nul ls = true ↔ Forall (λ l, no_nul l = true) ls.
Proof.
  rewrite forallb_forall, Forall_forall.
  split; intros H l Hl; apply H; by apply list_elem_of_In.
Qed.

Lemma line_at_Some E i ln :
  line_at E i = Some ln ↔ 0 ≤ i ∧ lines E !! Z.to_nat i = Some ln.
Proof.
  unfold line_at. destruct (Z.ltb_spec i 0); split.
  - done.
  - intros [? _]. lia.
  - done.
  - by intros [_ ?].
Qed.

Lemma line_at_lt E i ln : line_at E i = Some ln → 0 ≤ i < numlines E.
Proof.
  intros [? Hl]%line_at_Some. apply lookup_lt_Some in Hl.
  unfold numlines. lia.
Qed.

Lemma line_at_is_Some E i : 0 ≤ i < numlines E → is_Some (line_at E i).
Proof.
  intros H. unfold line_at. destruct (Z.ltb_spec i 0); [lia|].
  apply lookup_lt_is_Some. unfold numlines in H. lia.
Qed.

Lemma cursor_ok_iff E : cursor_ok E = true ↔ cursor_in_bounds E.
Proof.
  unfold cursor_ok, cursor_in_bounds. split.
  - destruct (line_at E (row E)) as [ln|] eqn:Hl; [|done].
    intros [H1 H2]%andb_true_iff. pose proof (line_at_lt _ _ _ Hl).
    split; [lia|]. exists ln. split; [done|lia].
  - intros [_ (ln & -> & H)]. apply andb_true_iff. lia.
Qed.

Lemma valid_iff E :
  valid E = true ↔
  Forall (λ l, no_nul l = true) (lines E) ∧ cursor_in_bounds E.
Proof.
  unfold valid. by rewrite andb_true_iff, lines_ok_Forall, cursor_ok_iff.
Qed.

Lemma insert_middle {A} (l1 l2 : list A) x y n :
  n = length l1 → <[n := y]> (l1 ++ x :: l2) = l1 ++ y :: l2.
Proof.
  intros ->. replace (length l1) with (length l1 + 0)%nat by lia.
  by rewrite insert_app_r.
Qed.

Lemma lookup_middle {A} (l1 l2 : list A) x n :
  n = length l1 → (l1 ++ x :: l2) !! n = Some x.
Proof. intros ->. by apply list_lookup_middle. Qed.

Lemma line_at_middle E pre ln post i :
  lines E = pre ++ ln :: post → i = Z.of_nat (length pre) →
  line_at E i = Some ln.
Proof.
  intros HE ->. apply line_at_Some. split; [lia|].
  rewrite HE. apply lookup_middle. lia.
Qed.

Lemma numlines_middle E pre ln post :
  lines E = pre ++ ln :: post →
  numlines E = Z.of_nat (length pre) + 1 + Z.of_nat (length post).
Proof.
  intros HE. unfold numlines. rewrite HE, length_app. simpl. lia.
Qed.

(** A valid state splits at its cursor. *)
Lemma valid_split E :
  valid E = true →
  ∃ pre a b post,
    lines E = pre ++ (a ++ b) :: post ∧
    row E = Z.of_nat (length pre) ∧ col E = strlen a ∧
    Forall (λ l, no_nul l = true) pre ∧ no_nul a = true ∧
    no_nul b = true ∧ Forall (λ l, no_nul l = true) post.
Proof.
  intros [Hls [Hr (ln & [H0 Hl]%line_at_Some & Hc)]]%valid_iff.
  exists (take (Z.to_nat (row E)) (lines E)),
         (take (Z.to_nat (col E)) ln), (drop (Z.to_nat (col E)) ln),
         (drop (S (Z.to_nat (row E))) (lines E)).
  pose proof (lookup_lt_Some _ _ _ Hl) as Hlt.
  assert (no_nul ln = true) as Hln.
  { eapply Forall_lookup_1 in Hls; [|exact Hl]. done. }
  unfold strlen in *.
  repeat split.
  - by rewrite take_drop, take_drop_middle.
  - rewrite length_take, Nat.min_l; lia.
  - rewrite length_take, Nat.min_l; lia.
  - by apply Forall_take.
  - by apply no_nul_take.
  - by apply no_nul_drop.
  - by apply Forall_drop.
Qed.

Lemma valid_of_split E pre a b post :
  lines E = pre ++ (a ++ b) :: post →
  row E = Z.of_nat (length pre) → col E = strlen a →
  Forall (λ l, no_nul l = true) pre → no_nul a = true →
  no_nul b = true → Forall (λ l, no_nul l = true) post →
  valid E = true.
Proof.
  intros HE Hr Hc Hpre Ha Hb Hpost. apply valid_iff. split.
  - rewrite HE. apply Forall_app. split; [done|].
    apply Forall_cons. split; [|done]. by rewrite no_nul_app, Ha, Hb.
  - split.
    + rewrite (numlines_middle _ _ _ _ HE). lia.
    + exists (a ++ b). split; [by eapply line_at_middle|].
      unfold strlen in *. rewrite length_app. lia.
Qed.

(** ** The edits, on a state split at its cursor *)

Lemma insert_char_split E pre a b post ch :
  lines E = pre ++ (a ++ b) :: post →
  row E = Z.of_nat (length pre) → col E = strlen a →
  no_nul a = true → no_nul b = true → ch ≠ NUL →
  editor_insert_char ch E =
  Some (set_modified true
          (set_col (col E + 1)
             (set_lines (pre ++ (a ++ ch :: b) :: post) E))).
Proof.
  intros HE Hr Hc Ha Hb Hch. unfold editor_insert_char.
  pose proof (numlines_middle _ _ _ _ HE) as Hn.
  rewrite (line_at_middle _ _ _ _ _ HE Hr). simpl.
  unfold strlen in *. rewrite length_app.
  zbool.
  rewrite take_app_length', drop_app_length' by lia.
  rewrite cstr_id.
  2:{ rewrite no_nul_app, Ha. simpl. rewrite Hb.
      apply Ascii.eqb_neq in Hch. by rewrite Hch. }
  rewrite HE, insert_middle by lia. done.
Qed.

Lemma delete_char_split E pre a c b post :
  lines E = pre ++ (a ++ c :: b) :: post →
  row E = Z.of_nat (length pre) → col E = strlen a + 1 →
  editor_delete_char E =
  Some (set_modified true
          (set_col (col E - 1)
             (set_lines (pre ++ (a ++ b) :: post) E))).
Proof.
  intros HE Hr Hc. unfold editor_delete_char.
  pose proof (numlines_middle _ _ _ _ HE) as Hn.
  rewrite (line_at_middle _ _ _ _ _ HE Hr). simpl.
  unfold strlen in *. rewrite length_app. simpl.
  zbool.
  rewrite take_app_length' by lia.
  replace (Z.to_nat (col E)) with (length (a ++ [c])).
  2:{ rewrite length_app. simpl. lia. }
  rewrite (cons_middle c a b), app_assoc, drop_app_length.
  rewrite HE, insert_middle by lia. done.
Qed.

Lemma delete_char_merge E pre prev cur post :
  lines E = pre ++ prev :: cur :: post →
  row E = Z.of_nat (length pre) + 1 → col E = 0 →
  editor_delete_char E =
  Some (set_modified true
          (set_col (strlen prev)
             (set_row (row E - 1)
                (set_lines (pre ++ (prev ++ cur) :: post) E)))).
Proof.
  intros HE Hr Hc. unfold editor_delete_char.
  assert (lines E = (pre ++ [prev]) ++ cur :: post) as HE'.
  { by rewrite HE, <- app_assoc. }
  pose proof (numlines_middle _ _ _ _ HE') as Hn.
  rewrite length_app in Hn. simpl in Hn.
  rewrite (line_at_middle _ _ _ _ (row E) HE').
  2:{ rewrite length_app. simpl. lia. }
  simpl. rewrite (line_at_middle _ _ _ _ (row E - 1) HE) by lia. simpl.
  zbool.
  rewrite HE. rewrite (cons_middle prev pre).
  replace (Z.to_nat (row E - 1)) with (length pre) by lia.
  rewrite <- (cons_middle prev pre), delete_middle.
  rewrite insert_middle by done. done.
Qed.

Lemma delete_char_origin E :
  row E = 0 → col E = 0 → editor_delete_char E = Some E.
Proof.
  intros Hr Hc. unfold editor_delete_char. rewrite Hr, Hc. simpl.
  by destruct (numlines E <=? 0).
Qed.

(** ** Cursor moves keep the state valid *)

Lemma valid_intro E ln :
  Forall (λ l, no_nul l = true) (lines E) →
  line_at E (row E) = Some ln → 0 ≤ col E ≤ strlen ln →
  valid E = true.
Proof.
  intros Hls Hl Hc. apply valid_iff. split; [done|].
  pose proof (line_at_lt _ _ _ Hl). split; [lia|]. by exists ln.
Qed.

Lemma clamp_col_valid E :
  Forall (λ l, no_nul l = true) (lines E) →
  0 ≤ row E < numlines E → 0 ≤ col E →
  ∃ E', clamp_col E = Some E' ∧ valid E' = true ∧
        lines E' = lines E ∧ row E' = row E ∧ modified E' = modified E.
Proof.
  intros Hls Hr Hc. unfold clamp_col.
  destruct (line_at_is_Some E (row E) Hr) as [ln Hl]. rewrite Hl. simpl.
  eexists. split; [done|].
  destruct (Z.ltb_spec (strlen ln) (col E)).
  - split; [|done]. apply (valid_intro _ ln); simpl; [done|done|].
    unfold strlen. lia.
  - split; [|done]. apply (valid_intro _ ln); [done|done|lia].
Qed.

Lemma move_cursor_valid key E :
  valid E = true →
  ∃ E', editor_move_cursor key E = Some E' ∧ valid E' = true ∧
        lines E' = lines E ∧ modified E' = modified E.
Proof.
  intros Hv. pose proof Hv as [Hls [Hr (ln & Hl & Hc)]]%valid_iff.
  unfold editor_move_cursor.
  destruct (key =? KEY_UP).
  { destruct (Z.ltb_spec 0 (row E)).
    - destruct (clamp_col_valid (set_row (row E - 1) E)) as (E' & ? & ? & ? & ? & ?);
        simpl; try done; try lia; try (unfold numlines in *; simpl; lia).
      by exists E'.
    - destruct (clamp_col_valid E) as (E' & ? & ? & ? & ? & ?); try done; try lia.
      by exists E'. }
  destruct (key =? KEY_DOWN).
  { destruct (Z.ltb_spec (row E) (numlines E - 1)).
    - destruct (clamp_col_valid (set_row (row E + 1) E)) as (E' & ? & ? & ? & ? & ?);
        simpl; try done; try lia; try (unfold numlines in *; simpl; lia).
      by exists E'.
    - destruct (clamp_col_valid E) as (E' & ? & ? & ? & ? & ?); try done; try lia.
      by exists E'. }
  destruct (key =? KEY_LEFT).
  { destruct (Z.ltb_spec 0 (col E)).
    - eexists. split; [done|]. split; [|done].
      apply (valid_intro _ ln); simpl; [done|done|lia].
    - destruct (Z.ltb_spec 0 (row E)); [|by exists E].
      destruct (line_at_is_Some E (row E - 1)) as [pl Hpl]; [lia|].
      rewrite Hpl. simpl. eexists. split; [done|]. split; [|done].
      apply (valid_intro _ pl); simpl; [done|done|unfold strlen; lia]. }
  destruct (key =? KEY_RIGHT); [|by exists E].
  rewrite Hl. simpl.
  destruct (Z.ltb_spec (col E) (strlen ln)).
  - eexists. split; [done|]. split; [|done].
    apply (valid_intro _ ln); simpl; [done|done|lia].
  - destruct (Z.ltb_spec (row E) (numlines E - 1)); [|by exists E].
    destruct (line_at_is_Some E (row E + 1)) as [nl Hnl]; [lia|].
    eexists. split; [done|]. split; [|done].
    apply (valid_intro _ nl); simpl; [done|done|unfold strlen; lia].
Qed.


Lemma insert_line_end s E :
  lines (editor_insert_line (numlines E) s E) = lines E ++ [strdup s].
Proof.
  unfold editor_insert_line. unfold numlines. zdec.
  by rewrite Nat2Z.id, firstn_all, drop_all.
Qed.

Lemma insert_newline_valid E :
  valid E = true →
  ∃ E', editor_insert_newline E = Some E' ∧ valid E' = true.
Proof.
  intros Hv. pose proof Hv as [Hls [Hr (ln & Hl & Hc)]]%valid_iff.
  unfold editor_insert_newline.
  destruct (Z.ltb_spec (row E) (numlines E - 1)).
  - destruct (clamp_col_valid (set_row (row E + 1) E)) as (E' & ? & ? & _);
      simpl; try done; try lia; try (unfold numlines in *; simpl; lia).
    by exists E'.
  - eexists. split; [done|].
    apply (valid_intro _ []); simpl.
    + rewrite insert_line_end. apply Forall_app. split; [done|].
      by apply Forall_singleton.
    + apply line_at_Some. simpl. rewrite insert_line_end.
      split; [lia|]. apply lookup_middle. unfold numlines in *. lia.
    + done.
Qed.

(** ** Edits keep the state valid *)

Lemma insert_char_valid ch E :
  valid E = true → ch ≠ NUL →
  ∃ E', editor_insert_char ch E = Some E' ∧ valid E' = true.
Proof.
  intros (pre & a & b & post & HE & Hr & Hc & Hpre & Ha & Hb & Hpost)%valid_split Hch.
  eexists. split; [by eapply insert_char_split|].
  apply (valid_of_split _ pre (a ++ [ch]) b post); simpl; try done.
  - by rewrite <- app_assoc.
  - unfold strlen in *. rewrite length_app. simpl. lia.
  - rewrite no_nul_app, Ha. simpl.
    apply Ascii.eqb_neq in Hch. by rewrite Hch.
Qed.

Lemma delete_char_valid E :
  valid E = true →
  ∃ E', editor_delete_char E = Some E' ∧ valid E' = true.
Proof.
  intros Hv.
  pose proof Hv as (pre & a & b & post & HE & Hr & Hc & Hpre & Ha & Hb & Hpost)%valid_split.
  destruct a as [|c a _] using rev_ind.
  - destruct pre as [|prev pre _] using rev_ind.
    + exists E. split; [by apply delete_char_origin|done].
    + rewrite <- app_assoc in HE. simpl in HE.
      rewrite length_app in Hr. simpl in Hr.
      apply Forall_app in Hpre as [Hpre Hprev].
      apply Forall_inv in Hprev.
      eexists. split.
      { apply (delete_char_merge _ pre prev b post); [done|lia|done]. }
      apply (valid_of_split _ pre prev b post); simpl; try done. lia.
  - rewrite <- app_assoc in HE. simpl in HE.
    unfold strlen in Hc. rewrite length_app in Hc. simpl in Hc.
    rewrite no_nul_app in Ha. apply andb_true_iff in Ha as [Ha _].
    eexists. split.
    { apply (delete_char_split _ pre a c b post); [done|done|unfold strlen; lia]. }
    apply (valid_of_split _ pre a b post); simpl; try done.
    unfold strlen. lia.
Qed.



Lemma insert_line_out_of_range at_ s E :
  at_ < 0 ∨ numlines E < at_ → editor_insert_line at_ s E = E.
Proof. intros H. unfold editor_insert_line. by zbool. Qed.


(** ** The cursor invariant (C1) *)





(** A NUL byte is no content for a C string: inserted at the end of
    "hello" it leaves the line as it is and the column at 6. *)
Lemma insert_char_nul_breaks_cursor :
  editor_insert_char NUL doc_hello = Some (doc [str "hello"] 0 6) ∧
  ¬ cursor_in_bounds (doc [str "hello"] 0 6).
Proof.
  split; [reflexivity|].
  intros [_ (ln & Hl & Hc)]. vm_compute in Hl. inversion Hl; subst.
  vm_compute in Hc. destruct Hc as [_ Hc]. by apply Hc.
Qed.

(** ** deleteLine keeps a line (C2) *)

(** C2.  A document has at least one line; after deleteLine at any index it
    still has: an index out of range changes nothing, and when the only line
    is removed one empty line is put back at once. *)
Theorem delete_line_keeps_a_line E at_ :
  1 ≤ numlines E →
  1 ≤ numlines (editor_delete_line at_ E) ∧
  (0 ≤ at_ < numlines E → numlines E = 1 →
     lines (editor_delete_line at_ E) = [[]]) ∧
  (0 ≤ at_ < numlines E → 1 < numlines E →
     lines (editor_delete_line at_ E) = delete (Z.to_nat at_) (lines E)) ∧
  (at_ < 0 ∨ numlines E ≤ at_ → editor_delete_line at_ E = E).
Proof.
  intros Hn. unfold editor_delete_line.
  destruct (Z.ltb_spec at_ 0); simpl.
  { repeat split; try done; lia. }
  destruct (Z.leb_spec (numlines E) at_); simpl.
  { repeat split; try done; lia. }
  assert (numlines (set_modified true (set_lines (delete (Z.to_nat at_) (lines E)) E))
          = numlines E - 1) as Hd.
  { unfold numlines in *. simpl. rewrite length_delete; [lia|].
    apply lookup_lt_is_Some. lia. }
  rewrite Hd.
  destruct (Z.eqb_spec (numlines E - 1) 0) as [Hz|Hz].
  - assert (delete (Z.to_nat at_) (lines E) = []) as Hnil.
    { apply length_zero_iff_nil. unfold numlines in *. simpl in Hd. lia. }
    unfold editor_insert_line. rewrite Hd. zdec.
    rewrite Hnil. unfold numlines in *. simpl.
    repeat split; try done; lia.
  - rewrite Hd. repeat split; try done; lia.
Qed.

Lemma delete_line_keeps_a_line_witness :
  1 ≤ numlines (doc [str "only"] 0 0) ∧
  1 ≤ numlines (editor_delete_line 0 (doc [str "only"] 0 0)) ∧
  lines (editor_delete_line 0 (doc [str "only"] 0 0)) = [[]].
Proof.
  split; [vm_compute; discriminate|].
  destruct (delete_line_keeps_a_line (doc [str "only"] 0 0) 0) as (H1 & H2 & _).
  { vm_compute. discriminate. }
  split; [exact H1|]. apply H2; vm_compute; [split; [discriminate|reflexivity]|reflexivity].
Defined.

(** ** deleteChar is a backspace (C3) *)



(** The scenario of the spec: four backspaces at the end of "hello". *)
Example delete_char_hello_four_times :
  ((editor_delete_char doc_hello ≫= editor_delete_char)
     ≫= editor_delete_char) ≫= editor_delete_char
  = Some (doc [str "h"] 0 1).
Proof. reflexivity. Qed.

(** ** insertChar then deleteChar (C4) *)



(** ** Enter (C7) *)



(** ** Scrolling (C5) *)











(** ** Saving (C6) *)

Lemma disk_set_file_eq name e W : disk (set_file name e W) name = e.
Proof. simpl. by rewrite String.eqb_refl. Qed.

Lemma fprintf_line_room name l W data :
  disk W name = File data → strlen (l ++ [LF]) ≤ room W →
  fprintf_line name l W =
  (strlen (l ++ [LF]),
   set_room (room W - strlen (l ++ [LF]))
            (set_file name (File (data ++ l ++ [LF])) W)).
Proof. intros Hd Hr. unfold fprintf_line. rewrite Hd. by zdec. Qed.

Lemma fprintf_line_full name l W :
  room W < strlen (l ++ [LF]) → fprintf_line name l W = (-1, W).
Proof.
  intros Hr. unfold fprintf_line. destruct (disk W name); [done|done|]. by zdec.
Qed.

Lemma fprintf_line_frame name l W :
  keys (fprintf_line name l W).2 = keys W ∧
  shown (fprintf_line name l W).2 = shown W.
Proof.
  unfold fprintf_line. destruct (disk W name); [done|done|].
  by destruct (strlen (l ++ [LF]) <=? room W).
Qed.

Lemma write_lines_frame name ls : ∀ W,
  keys (foldl (λ W' l, (fprintf_line name l W').2) W ls) = keys W ∧
  shown (foldl (λ W' l, (fprintf_line name l W').2) W ls) = shown W.
Proof.
  induction ls as [|l ls IH]; intros W; simpl; [done|].
  destruct (IH (fprintf_line name l W).2) as [-> ->].
  apply fprintf_line_frame.
Qed.

Lemma file_image_cons l ls : file_image (l :: ls) = l ++ [LF] ++ file_image ls.
Proof. unfold file_image. simpl. by rewrite <- app_assoc. Qed.

Lemma write_lines_room name ls : ∀ W data,
  disk W name = File data → strlen (file_image ls) ≤ room W →
  disk (foldl (λ W' l, (fprintf_line name l W').2) W ls) name =
  File (data ++ file_image ls).
Proof.
  induction ls as [|l ls IH]; intros W data Hd Hr; simpl.
  - by rewrite app_nil_r.
  - rewrite file_image_cons in *. unfold strlen in *.
    rewrite !length_app in Hr. simpl in Hr.
    rewrite (fprintf_line_room _ _ _ data Hd).
    2:{ unfold strlen. rewrite length_app. simpl. lia. }
    simpl snd. rewrite (IH _ (data ++ l ++ [LF])).
    + by rewrite <- app_assoc, <- app_assoc.
    + simpl. by rewrite String.eqb_refl.
    + simpl. unfold strlen. rewrite length_app. simpl. lia.
Qed.

Lemma save_file_denied E W :
  disk W (save_name E) = Denied →
  editor_save_file E W =
  (-1, set_filename (Some (save_name E)) E,
   editor_status_message "Error: Cannot open file for writing!" W).
Proof.
  intros Hd. unfold editor_save_file, fopen_w, save_name in *.
  destruct E as [ls r c t l sr sc [fn|] m]; simpl in *; by rewrite Hd.
Qed.

Lemma save_file_opened E W :
  disk W (save_name E) ≠ Denied →
  editor_save_file E W =
  (0, set_modified false (set_filename (Some (save_name E)) E),
   editor_status_message "File saved successfully!"
     (foldl (λ W' l, (fprintf_line (save_name E) l W').2)
            (set_file (save_name E) (File []) W) (lines E))).
Proof.
  intros Hd. unfold editor_save_file, fopen_w, save_name in *.
  destruct E as [ls r c t l sr sc [fn|] m]; simpl in *.
  - by destruct (disk W fn).
  - by destruct (disk W "untitled.txt").
Qed.

Lemma save_file_disk E W :
  disk W (save_name E) ≠ Denied →
  strlen (file_image (lines E)) ≤ room W →
  disk (editor_save_file E W).2 (save_name E) = File (file_image (lines E)).
Proof.
  intros Hd Hr. rewrite (save_file_opened _ _ Hd). simpl.
  by apply (write_lines_room _ _ _ []); [simpl; rewrite String.eqb_refl|].
Qed.

(** C6, as amended.  save opens the file named by the editor, or
    "untitled.txt" when no name was set.  When the file cannot be opened it
    returns -1, shows the error and leaves the modified flag and the lines
    as they were.  Once the file is open it returns 0, clears the modified
    flag and shows the success message, whatever becomes of the writes; when
    the disk takes them the file holds each line followed by a line feed, in
    order. *)
Theorem save_file_outcome E W :
  filename (editor_save_file E W).1.2 = Some (save_name E) ∧
  lines (editor_save_file E W).1.2 = lines E ∧
  (filename E = None → save_name E = "untitled.txt"%string) ∧
  (disk W (save_name E) = Denied →
     (editor_save_file E W).1.1 = -1 ∧
     modified (editor_save_file E W).1.2 = modified E ∧
     (editor_save_file E W).2 =
       editor_status_message "Error: Cannot open file for writing!" W) ∧
  (disk W (save_name E) ≠ Denied →
     (editor_save_file E W).1.1 = 0 ∧
     modified (editor_save_file E W).1.2 = false ∧
     shown (editor_save_file E W).2 =
       "File saved successfully!"%string :: shown W ∧
     (strlen (file_image (lines E)) ≤ room W →
        disk (editor_save_file E W).2 (save_name E) =
        File (file_image (lines E)))).
Proof.
  assert (disk W (save_name E) = Denied ∨ disk W (save_name E) ≠ Denied)
    as [Hd|Hd] by (destruct (disk W (save_name E)); auto).
  - rewrite (save_file_denied _ _ Hd). simpl. repeat split; try done.
    intros H. unfold save_name. by rewrite H.
  - rewrite (save_file_opened _ _ Hd). simpl. repeat split; try done.
    + intros H. unfold save_name. by rewrite H.
    + by destruct (write_lines_frame (save_name E) (lines E)
                     (set_file (save_name E) (File []) W)) as [_ ->].
    + intros Hr. pose proof (save_file_disk E W Hd Hr) as Himg.
      by rewrite (save_file_opened _ _ Hd) in Himg.
Qed.

(** C6, as stated, fails for a failing write: with no room on the disk the
    [fprintf] of the line fails, yet save returns 0 and clears the modified
    flag, and the file is left empty. *)
Lemma save_file_ignores_write_failure :
  modified (doc [str "abc"] 0 0) = true ∧
  fopen_w "untitled.txt" (world [] 0) =
    Some (set_file "untitled.txt" (File []) (world [] 0)) ∧
  (fprintf_line "untitled.txt" (str "abc")
     (set_file "untitled.txt" (File []) (world [] 0))).1 = -1 ∧
  (editor_save_file (doc [str "abc"] 0 0) (world [] 0)).1.1 = 0 ∧
  modified (editor_save_file (doc [str "abc"] 0 0) (world [] 0)).1.2 = false ∧
  disk (editor_save_file (doc [str "abc"] 0 0) (world [] 0)).2 "untitled.txt"
    = File [].
Proof. repeat split; reflexivity. Qed.

(** ** Loading, and saving then loading (C8) *)

(** [getlines] is [getline] called until it returns -1. *)
Lemma getlines_getline fp :
  getlines fp =
  match getline fp with
  | None => []
  | Some (l, rest) => l :: getlines rest
  end.
Proof.
  induction fp as [|c fp IH]; simpl; [done|].
  destruct (Ascii.eqb c LF); [done|].
  rewrite IH. by destruct (getline fp) as [[l rest]|].
Qed.

Lemma getline_shorter fp l rest :
  getline fp = Some (l, rest) → (length rest < length fp)%nat.
Proof.
  revert l rest. induction fp as [|c fp IH]; intros l rest; simpl; [done|].
  destruct (Ascii.eqb c LF).
  - intros [= <- <-]. lia.
  - destruct (getline fp) as [[l' rest']|].
    + intros [= <- <-]. specialize (IH _ _ eq_refl). lia.
    + intros [= <- <-]. simpl. lia.
Qed.

Lemma getlines_line l rest :
  no_lf l = true → getlines (l ++ LF :: rest) = (l ++ [LF]) :: getlines rest.
Proof.
  induction l as [|c l IH]; simpl; [done|].
  intros [Hc Hl]%andb_true_iff. apply negb_true_iff in Hc.
  rewrite Hc. by rewrite IH.
Qed.

Lemma getlines_image ls :
  Forall (λ l, no_lf l = true) ls →
  getlines (file_image ls) = map (λ l, l ++ [LF]) ls.
Proof.
  induction 1 as [|l ls Hl _ IH]; [done|].
  rewrite file_image_cons. simpl. by rewrite getlines_line, IH.
Qed.

Lemma strip_eol_last l c :
  strip_eol (l ++ [c]) =
  if Ascii.eqb c LF || Ascii.eqb c CR then l ++ [NUL] else l ++ [c].
Proof.
  unfold strip_eol. rewrite length_app. simpl.
  replace (length l + 1 - 1)%nat with (length l) by lia.
  rewrite lookup_middle by done.
  replace (0 <? Z.of_nat (length l + 1)) with true
    by (symmetry; apply Z.ltb_lt; lia).
  simpl. destruct (Ascii.eqb c LF || Ascii.eqb c CR); [|done].
  by rewrite insert_middle.
Qed.

Lemma load_line_lf l : no_nul l = true → strdup (strip_eol (l ++ [LF])) = l.
Proof. intros Hl. rewrite strip_eol_last. simpl. by apply cstr_app_nul. Qed.

Lemma load_line_cr l : no_nul l = true → strdup (strip_eol (l ++ [CR])) = l.
Proof. intros Hl. rewrite strip_eol_last. simpl. by apply cstr_app_nul. Qed.

Lemma load_loop_lines bufs : ∀ E,
  lines (foldl (λ E' buf, editor_insert_line (numlines E') (strip_eol buf) E')
               E bufs)
  = lines E ++ map (λ buf, strdup (strip_eol buf)) bufs.
Proof.
  induction bufs as [|buf bufs IH]; intros E; simpl.
  - by rewrite app_nil_r.
  - rewrite IH, insert_line_end. by rewrite <- app_assoc.
Qed.

Lemma insert_line_modified at_ s E :
  0 ≤ at_ ≤ numlines E → modified (editor_insert_line at_ s E) = true.
Proof. intros H. unfold editor_insert_line. by zdec. Qed.

Lemma insert_line_keeps_modified at_ s E :
  modified E = true → modified (editor_insert_line at_ s E) = true.
Proof.
  intros H. unfold editor_insert_line.
  by destruct ((at_ <? 0) || (numlines E <? at_)).
Qed.

Lemma load_loop_modified bufs : ∀ E,
  bufs ≠ [] ∨ modified E = true →
  modified (foldl (λ E' buf, editor_insert_line (numlines E') (strip_eol buf) E')
                  E bufs) = true.
Proof.
  induction bufs as [|buf bufs IH]; intros E H; simpl.
  - by destruct H.
  - apply IH. right. apply insert_line_modified. unfold numlines. lia.
Qed.

Lemma load_file_lines name E W data :
  disk W name = File data → lines E = [] →
  lines (editor_load_file name E W).1 =
  match getlines data with
  | [] => [[]]
  | bufs => map (λ buf, strdup (strip_eol buf)) bufs
  end.
Proof.
  intros Hd HE. unfold editor_load_file. rewrite Hd.
  pose proof (load_loop_lines (getlines data) E) as Hl.
  rewrite HE in Hl. simpl in Hl.
  destruct (getlines data) as [|buf bufs].
  - simpl in *. unfold editor_insert_line, numlines. simpl. by rewrite HE.
  - unfold numlines at 1. rewrite Hl. simpl. done.
Qed.

Lemma map_load_image ls :
  Forall (λ l, no_nul l = true) ls →
  map (λ buf, strdup (strip_eol buf)) (map (λ l, l ++ [LF]) ls) = ls.
Proof.
  induction 1 as [|l ls Hl _ IH]; simpl; [done|].
  by rewrite load_line_lf, IH.
Qed.

(** C8.  Saving writes each line followed by a line feed, in order; loading
    strips one trailing line feed or carriage return from each stream line,
    and no more.  So a document whose lines hold no line feed, saved to a
    disk that takes it and loaded by a fresh session, comes back line for
    line; ["abc", "", "de"] does. *)
Theorem save_then_load E W :
  lines E ≠ [] →
  Forall (λ l, no_nul l = true) (lines E) →
  Forall (λ l, no_lf l = true) (lines E) →
  disk W (save_name E) ≠ Denied →
  strlen (file_image (lines E)) ≤ room W →
  disk (editor_save_file E W).2 (save_name E) = File (file_image (lines E)) ∧
  lines (editor_init (Some (save_name E)) (editor_save_file E W).2).1 = lines E ∧
  (∀ l, no_nul l = true →
     strdup (strip_eol (l ++ [LF])) = l ∧
     strdup (strip_eol (l ++ [CR])) = l ∧
     strdup (strip_eol (l ++ [CR; LF])) = l ++ [CR]) ∧
  lines (editor_init (Some "untitled.txt"%string)
           (editor_save_file doc_abc_de (world [] 100)).2).1
  = [str "abc"; str ""; str "de"].
Proof.
  intros Hne Hnul Hlf Hd Hr.
  pose proof (save_file_disk E W Hd Hr) as Himg.
  split; [done|]. split; [|split].
  - unfold editor_init.
    destruct (editor_load_file _ _ _) as [E1 W1] eqn:Hload.
    simpl. change E1 with (E1, W1).1. rewrite <- Hload.
    rewrite (load_file_lines _ _ _ _ Himg) by done.
    rewrite getlines_image by done.
    remember (lines E) as ls0 eqn:Hls. destruct ls0 as [|l ls]; [done|].
    exact (map_load_image (l :: ls) Hnul).
  - intros l Hl. split; [by apply load_line_lf|]. split; [by apply load_line_cr|].
    replace (l ++ [CR; LF]) with ((l ++ [CR]) ++ [LF])
      by (by rewrite <- app_assoc).
    apply load_line_lf. rewrite no_nul_app, Hl. done.
  - reflexivity.
Qed.

Lemma save_then_load_witness :
  lines doc_abc_de ≠ [] ∧
  Forall (λ l, no_nul l = true) (lines doc_abc_de) ∧
  Forall (λ l, no_lf l = true) (lines doc_abc_de) ∧
  disk (world [] 100) (save_name doc_abc_de) ≠ Denied ∧
  strlen (file_image (lines doc_abc_de)) ≤ room (world [] 100) ∧
  lines (editor_init (Some (save_name doc_abc_de))
           (editor_save_file doc_abc_de (world [] 100)).2).1
  = lines doc_abc_de.
Proof.
  assert (lines doc_abc_de ≠ []) as H1 by discriminate.
  assert (Forall (λ l, no_nul l = true) (lines doc_abc_de)) as H2
    by (repeat constructor).
  assert (Forall (λ l, no_lf l = true) (lines doc_abc_de)) as H3
    by (repeat constructor).
  assert (disk (world [] 100) (save_name doc_abc_de) ≠ Denied) as H4
    by discriminate.
  assert (strlen (file_image (lines doc_abc_de)) ≤ room (world [] 100)) as H5
    by (vm_compute; discriminate).
  repeat (split; [assumption|]).
  apply (save_then_load doc_abc_de (world [] 100) H1 H2 H3 H4 H5).
Defined.

(** ** Leaving the editor (C9) *)

Lemma exit_key_when_modified E W :
  modified E = true →
  editor_process_key 24 E W =
  Some (match keys W with
        | [] => Running E (editor_status_message exit_prompt W)
        | k :: ks =>
            if k =? 24
            then Exited (set_keys ks (editor_status_message exit_prompt W))
            else Running E (set_keys ks (editor_status_message exit_prompt W))
        end).
Proof.
  intros Hm. unfold editor_process_key, getch. simpl. rewrite Hm.
  destruct (keys W) as [|k ks]; simpl; [done|].
  by destruct (k =? 24).
Qed.

Lemma scroll_frame E :
  lines (editor_scroll E) = lines E ∧ row (editor_scroll E) = row E ∧
  col (editor_scroll E) = col E ∧ modified (editor_scroll E) = modified E ∧
  filename (editor_scroll E) = filename E.
Proof.
  unfold editor_scroll.
  repeat match goal with |- context [if ?b then _ else _] => destruct b end;
    done.
Qed.

(** C9.  With the modified flag set, the exit trigger (key 24) shows the
    confirmation prompt and reads exactly one more event.  Any event other
    than key 24 cancels: the function returns with the editor state as it
    was, the event gone from the input and nothing run for it; so does the
    lack of an event.  A second key 24 ends the program.  In the loop of
    [main]: trigger then another key leaves the session running with the
    document unchanged, two triggers in a row end it. *)
Theorem exit_trigger_protocol E W :
  modified E = true →
  (∀ k ks, keys W = k :: ks → k ≠ 24 →
     editor_process_key 24 E W =
     Some (Running E (mkWorld ks (exit_prompt :: shown W) (disk W) (room W)
                              (maxy W) (maxx W)))) ∧
  (keys W = [] →
     editor_process_key 24 E W =
     Some (Running E (editor_status_message exit_prompt W))) ∧
  (∀ ks, keys W = 24 :: ks →
     editor_process_key 24 E W =
     Some (Exited (mkWorld ks (exit_prompt :: shown W) (disk W) (room W)
                           (maxy W) (maxx W)))) ∧
  (∀ k ks, keys W = 24 :: k :: ks → k ≠ 24 →
     main_turn E W =
     Some (Running (editor_scroll E)
                   (mkWorld ks (exit_prompt :: shown W) (disk W) (room W)
                            (maxy W) (maxx W))) ∧
     lines (editor_scroll E) = lines E ∧
     modified (editor_scroll E) = true) ∧
  (∀ ks n, keys W = 24 :: 24 :: ks →
     main_loop (S n) E W =
     Some (Exited (mkWorld ks (exit_prompt :: shown W) (disk W) (room W)
                           (maxy W) (maxx W)))).
Proof.
  intros Hm. pose proof (exit_key_when_modified E W Hm) as Hkey.
  destruct (scroll_frame E) as (Hl & _ & _ & Hms & _).
  assert (modified (editor_scroll E) = true) as Hm' by congruence.
  split; [|split; [|split; [|split]]].
  - intros k ks Hk Hne. rewrite Hkey, Hk.
    by destruct (Z.eqb_spec k 24).
  - intros Hk. by rewrite Hkey, Hk.
  - intros ks Hk. by rewrite Hkey, Hk.
  - intros k ks Hk Hne. split; [|done].
    unfold main_turn, getch. rewrite Hk. simpl.
    rewrite (exit_key_when_modified _ _ Hm'). simpl.
    by destruct (Z.eqb_spec k 24).
  - intros ks n Hk. simpl. unfold main_turn, getch. rewrite Hk. simpl.
    by rewrite (exit_key_when_modified _ _ Hm').
Qed.

Lemma exit_trigger_protocol_witness :
  modified doc_hello = true ∧
  editor_process_key 24 doc_hello (world [15; 24] 100) =
  Some (Running doc_hello
          (mkWorld [24] [exit_prompt] (λ _, Missing) 100 24 80)).
Proof.
  split; [reflexivity|].
  apply (proj1 (exit_trigger_protocol doc_hello (world [15; 24] 100) eq_refl)
               15 [24]); [reflexivity|discriminate].
Defined.

(** ** A fresh session is already modified (C10) *)

Lemma load_file_modified name E W :
  lines E = [] → modified (editor_load_file name E W).1 = true.
Proof.
  intros HE. unfold editor_load_file.
  destruct (disk W name) as [| |data]; simpl.
  - apply insert_line_modified. unfold numlines. rewrite HE. simpl. lia.
  - apply insert_line_modified. unfold numlines. rewrite HE. simpl. lia.
  - match goal with |- context [numlines ?X =? 0] => set (E1 := X) end.
    destruct (Z.eqb_spec (numlines E1) 0) as [Hz|Hz].
    + apply insert_line_modified. lia.
    + apply load_loop_modified. left. intros Hnil.
      apply Hz. unfold E1, numlines. rewrite Hnil. simpl. by rewrite HE.
Qed.

Lemma init_modified name W : modified (editor_init name W).1 = true.
Proof.
  unfold editor_init. destruct name as [f|].
  - destruct (editor_load_file _ _ _) as [E1 W1] eqn:Hload. simpl.
    change E1 with (E1, W1).1. rewrite <- Hload.
    by apply load_file_modified.
  - simpl. done.
Qed.

(** C10.  Whatever the argument and the disk (a file loaded, a file absent
    or unreadable, no name at all), the state [editor_init] leaves is
    already marked modified, every line having come in through
    [editor_insert_line]; hence the exit trigger on it asks for
    confirmation, and any other key after the prompt keeps the session
    open. *)
Theorem fresh_session_is_modified name W :
  modified (editor_init name W).1 = true ∧
  (name = None → lines (editor_init name W).1 = [[]]) ∧
  (∀ f, name = Some f → disk W f = Missing →
     lines (editor_init name W).1 = [[]]) ∧
  (∀ f data, name = Some f → disk W f = File data → getlines data ≠ [] →
     lines (editor_init name W).1 =
     map (λ buf, strdup (strip_eol buf)) (getlines data)) ∧
  (∀ W' k ks, keys W' = k :: ks → k ≠ 24 →
     editor_process_key 24 (editor_init name W).1 W' =
     Some (Running (editor_init name W).1
             (mkWorld ks (exit_prompt :: shown W') (disk W') (room W')
                      (maxy W') (maxx W')))).
Proof.
  pose proof (init_modified name W) as Hm.
  split; [done|]. split; [|split; [|split]].
  - by intros ->.
  - intros f -> Hd. unfold editor_init, editor_load_file. by rewrite Hd.
  - intros f data -> Hd Hne. unfold editor_init.
    destruct (editor_load_file _ _ _) as [E1 W1] eqn:Hload. simpl.
    change E1 with (E1, W1).1. rewrite <- Hload.
    rewrite (load_file_lines _ _ _ _ Hd) by done.
    by destruct (getlines data).
  - intros W' k ks Hk Hne. rewrite (exit_key_when_modified _ _ Hm), Hk.
    by destruct (Z.eqb_spec k 24).
Qed.

(** ** The running program keeps its state valid

    [editor_init] sets a valid state up and every key keeps it valid: the
    program itself only appends lines, so the cursor invariant holds
    throughout a session. *)

Lemma valid_frame E E' :
  lines E' = lines E → row E' = row E → col E' = col E → valid E' = valid E.
Proof.
  intros Hl Hr Hc. unfold valid, cursor_ok, line_at. by rewrite Hl, Hr, Hc.
Qed.

Lemma save_file_frame E W :
  lines (editor_save_file E W).1.2 = lines E ∧
  row (editor_save_file E W).1.2 = row E ∧
  col (editor_save_file E W).1.2 = col E.
Proof.
  unfold editor_save_file.
  destruct E as [ls r c t l sr sc [fn|] m]; simpl;
    by destruct (fopen_w _ W).
Qed.

Lemma char_of_int_printable c : isprint c = true → char_of_int c ≠ NUL.
Proof.
  intros [H1%Z.leb_le H2%Z.leb_le]%andb_true_iff Hz.
  unfold char_of_int in Hz. rewrite Z.mod_small in Hz by lia.
  apply (f_equal N_of_ascii) in Hz.
  rewrite N_ascii_embedding in Hz by lia. simpl in Hz. lia.
Qed.

Lemma process_key_valid c E W :
  valid E = true →
  ∃ o, editor_process_key c E W = Some o ∧ outcome_valid o.
Proof.
  intros Hv. unfold editor_process_key.
  destruct (c =? 24).
  { destruct (modified E); [|by eexists].
    destruct (getch _) as [c2 W2]. destruct (c2 =? 24); by eexists. }
  destruct (c =? 15).
  { destruct (editor_save_file E W) as [[r E1] W1] eqn:Hs.
    eexists. split; [done|]. simpl.
    destruct (save_file_frame E W) as (Hl & Hr & Hc). rewrite Hs in *.
    by rewrite (valid_frame E E1). }
  destruct (_ || _).
  { destruct (move_cursor_valid c E Hv) as (E' & -> & ? & _). by eexists. }
  destruct (_ || _).
  { destruct (delete_char_valid E Hv) as (E' & -> & ?). by eexists. }
  destruct (_ || _).
  { destruct (insert_newline_valid E Hv) as (E' & -> & ?). by eexists. }
  destruct (isprint c) eqn:Hp; [|by eexists].
  destruct (insert_char_valid (char_of_int c) E Hv) as (E' & -> & ?);
    [by apply char_of_int_printable|by eexists].
Qed.

Lemma scroll_valid E : valid E = true → valid (editor_scroll E) = true.
Proof.
  intros Hv. destruct (scroll_frame E) as (Hl & Hr & Hc & _).
  by rewrite (valid_frame E (editor_scroll E)).
Qed.

Lemma main_loop_valid n : ∀ E W,
  valid E = true → ∃ o, main_loop n E W = Some o ∧ outcome_valid o.
Proof.
  induction n as [|n IH]; intros E W Hv; simpl; [by eexists|].
  unfold main_turn, editor_refresh_screen. destruct (getch W) as [c W1].
  destruct (process_key_valid c _ W1 (scroll_valid E Hv)) as (o & -> & Ho).
  simpl. destruct o as [W'|E' W']; [by eexists|]. by apply IH.
Qed.

Lemma load_loop_cursor bufs : ∀ E,
  row (foldl (λ E' buf, editor_insert_line (numlines E') (strip_eol buf) E')
             E bufs) = row E ∧
  col (foldl (λ E' buf, editor_insert_line (numlines E') (strip_eol buf) E')
             E bufs) = col E.
Proof.
  induction bufs as [|buf bufs IH]; intros E; simpl; [done|].
  destruct (IH (editor_insert_line (numlines E) (strip_eol buf) E)) as [-> ->].
  unfold editor_insert_line. by destruct (_ || _).
Qed.

Lemma init_valid name W : valid (editor_init name W).1 = true.
Proof.
  unfold editor_init. destruct name as [f|]; [|done].
  unfold editor_load_file. destruct (disk W f) as [| |data]; [done|done|].
  simpl.
  pose proof (load_loop_lines (getlines data)
                (set_filename (Some f)
                   (mkEditorState [] 0 0 0 0 (maxy W - 3) (maxx W) None false)))
    as Hl.
  pose proof (load_loop_cursor (getlines data)
                (set_filename (Some f)
                   (mkEditorState [] 0 0 0 0 (maxy W - 3) (maxx W) None false)))
    as [Hr Hc].
  simpl in Hl, Hr, Hc. revert Hl Hr Hc.
  generalize (foldl
      (λ E' buf, editor_insert_line (numlines E') (strip_eol buf) E')
      (set_filename (Some f)
         (mkEditorState [] 0 0 0 0 (maxy W - 3) (maxx W) None false))
      (getlines data)).
  intros E1 Hl Hr Hc.
  destruct (getlines data) as [|buf bufs]; simpl in Hl.
  - unfold numlines. rewrite Hl. simpl.
    unfold valid, cursor_ok, line_at, editor_insert_line, numlines.
    rewrite Hl. simpl. by rewrite Hr, Hc.
  - unfold numlines. rewrite Hl. simpl.
    apply (valid_intro _ (strdup (strip_eol buf))).
    + rewrite Hl. apply Forall_cons. split; [apply cstr_no_nul|].
      apply Forall_map, Forall_true. intros ?. apply cstr_no_nul.
    + rewrite Hr. unfold line_at. simpl. by rewrite Hl.
    + rewrite Hc. unfold strlen. lia.
Qed.

(** A whole session: any number of turns of the loop of [main] after
    [editor_init] run without a stray read and leave the cursor in bounds. *)
Lemma session_valid name W n :
  ∃ o, main_loop n (editor_init name W).1 (editor_init name W).2 = Some o ∧
       outcome_valid o.
Proof. apply main_loop_valid, init_valid. Qed.

(** * Further properties of the code *)

(** ** The line array *)

Lemma take_drop_cons_length {A} (l : list A) n x :
  (n ≤ length l)%nat → length (take n l ++ x :: drop n l) = S (length l).
Proof.
  intros H. rewrite length_app, length_take. simpl. rewrite length_drop. lia.
Qed.



(** X2.  [editor_insert_line] at an index from 0 to numlines stores a copy
    of the text there, keeps the lines before it, moves the lines from it on
    one index down, marks the document modified and leaves the cursor
    alone; at any other index it changes nothing. *)
Theorem insert_line_shifts_down E at_ s :
  0 ≤ at_ ≤ numlines E →
  numlines (editor_insert_line at_ s E) = numlines E + 1 ∧
  line_at (editor_insert_line at_ s E) at_ = Some (strdup s) ∧
  (∀ i, i < at_ → line_at (editor_insert_line at_ s E) i = line_at E i) ∧
  (∀ i, at_ ≤ i →
        line_at (editor_insert_line at_ s E) (i + 1) = line_at E i) ∧
  modified (editor_insert_line at_ s E) = true ∧
  row (editor_insert_line at_ s E) = row E ∧
  col (editor_insert_line at_ s E) = col E ∧
  (∀ bad, bad < 0 ∨ numlines E < bad → editor_insert_line bad s E = E).
Proof.
  intros Hat. unfold editor_insert_line at 1 2 3 4 5 6 7. unfold numlines in *.
  zdec.
  assert (length (take (Z.to_nat at_) (lines E)) = Z.to_nat at_) as Htk
    by (rewrite length_take; lia).
  split; [|split; [|split; [|split; [|split; [done|split; [done|split; [done|]]]]]]].
  - simpl. rewrite take_drop_cons_length by lia. lia.
  - apply line_at_Some. simpl. split; [lia|]. by apply lookup_middle.
  - intros i Hi. unfold line_at. simpl. destruct (Z.ltb_spec i 0); [done|].
    rewrite lookup_app_l by lia. apply lookup_take_lt. lia.
  - intros i Hi. unfold line_at. simpl. zdec.
    rewrite lookup_app_r by lia. rewrite Htk.
    replace (Z.to_nat (i + 1) - Z.to_nat at_)%nat
      with (S (Z.to_nat i - Z.to_nat at_)) by lia.
    simpl. rewrite lookup_drop. f_equal. lia.
  - intros bad Hbad. apply insert_line_out_of_range. unfold numlines. lia.
Qed.

Lemma insert_line_shifts_down_witness :
  0 ≤ 1 ≤ numlines doc_ab_cd ∧
  line_at (editor_insert_line 1 (str "xy") doc_ab_cd) 1 = Some (strdup (str "xy")).
Proof.
  split; [vm_compute; split; discriminate|].
  apply (insert_line_shifts_down doc_ab_cd 1 (str "xy")).
  vm_compute; split; discriminate.
Defined.

(** X3.  Inserting a line and deleting it again at the same index gives the
    document back, whatever the text; deleting a line of a document of two
    or more lines and inserting its text again at that index does too.  Only
    the modified flag is set. *)
Theorem line_insert_delete_round_trip E at_ :
  1 ≤ numlines E →
  (∀ s, 0 ≤ at_ ≤ numlines E →
     editor_delete_line at_ (editor_insert_line at_ s E) = set_modified true E) ∧
  (∀ l, line_at E at_ = Some l → no_nul l = true → 1 < numlines E →
     editor_insert_line at_ l (editor_delete_line at_ E) = set_modified true E).
Proof.
  intros Hn. split.
  - intros s Hat.
    assert (length (take (Z.to_nat at_) (lines E)) = Z.to_nat at_) as Htk
      by (rewrite length_take; unfold numlines in *; lia).
    assert (editor_insert_line at_ s E =
            set_modified true
              (set_lines (take (Z.to_nat at_) (lines E) ++
                          strdup s :: drop (Z.to_nat at_) (lines E)) E)) as ->.
    { unfold editor_insert_line. by zdec. }
    assert (delete (Z.to_nat at_)
              (take (Z.to_nat at_) (lines E) ++
               strdup s :: drop (Z.to_nat at_) (lines E)) = lines E) as Hdel.
    { rewrite <- Htk at 1. by rewrite delete_middle, take_drop. }
    unfold editor_delete_line, numlines in *. simpl.
    rewrite take_drop_cons_length by lia. rewrite Hdel. zdec.
    by destruct E.
  - intros l Hl Hnul Hn2. pose proof (line_at_lt _ _ _ Hl) as Hat.
    apply line_at_Some in Hl as [_ Hl].
    unfold editor_delete_line. unfold numlines in *. zdec.
    rewrite length_delete by (by eexists).
    replace (Z.of_nat (length (lines E) - 1) =? 0) with false
      by (symmetry; apply Z.eqb_neq; lia).
    unfold editor_insert_line, numlines. simpl.
    rewrite length_delete by (by eexists). zdec.
    unfold strdup. rewrite cstr_id by done.
    rewrite delete_take_drop.
    rewrite take_app_length' by (rewrite length_take; lia).
    rewrite drop_app_length' by (rewrite length_take; lia).
    rewrite take_drop_middle by done. by destruct E.
Qed.

Lemma line_insert_delete_round_trip_witness :
  1 ≤ numlines doc_ab_cd ∧
  editor_delete_line 1 (editor_insert_line 1 (str "xy") doc_ab_cd)
  = set_modified true doc_ab_cd.
Proof.
  split; [vm_compute; discriminate|].
  apply (line_insert_delete_round_trip doc_ab_cd 1);
    vm_compute; [discriminate|split; discriminate].
Defined.

(** ** Cursor moves *)

Lemma set_row_col_id E r c : r = row E → c = col E → set_col c (set_row r E) = E.
Proof. intros -> ->. by destruct E. Qed.







Lemma move_cursor_frame key E E' :
  editor_move_cursor key E = Some E' →
  lines E' = lines E ∧ modified E' = modified E ∧ filename E' = filename E ∧
  topline E' = topline E ∧ leftcol E' = leftcol E ∧
  screenrows E' = screenrows E ∧ screencols E' = screencols E.
Proof.
  unfold editor_move_cursor, clamp_col.
  repeat match goal with
  | |- context [if ?b then _ else _] => destruct b
  end; simpl;
  repeat match goal with
  | |- context [line_at ?X ?r] => destruct (line_at X r); simpl
  | |- context [if ?b then _ else _] => destruct b
  end;
  intros [= <-]; done.
Qed.

(** X7.  A cursor move never touches anything but the cursor: the lines, the
    modified flag, the file name, the scroll offsets and the screen size
    are the same after it, on any state and for any key. *)
Theorem move_cursor_only_moves key E E' :
  editor_move_cursor key E = Some E' →
  lines E' = lines E ∧ modified E' = modified E ∧ filename E' = filename E ∧
  topline E' = topline E ∧ leftcol E' = leftcol E ∧
  screenrows E' = screenrows E ∧ screencols E' = screencols E.
Proof.
  unfold editor_move_cursor, clamp_col.
  destruct (key =? KEY_UP).
  { destruct (0 <? row E); simpl; (destruct (line_at _ _); simpl; [|done]);
      intros [= <-]; by destruct (_ <? _). }
  destruct (key =? KEY_DOWN).
  { destruct (row E <? numlines E - 1); simpl;
      (destruct (line_at _ _); simpl; [|done]);
      intros [= <-]; by destruct (_ <? _). }
  destruct (key =? KEY_LEFT).
  { destruct (0 <? col E); [by intros [= <-]|].
    destruct (0 <? row E); [|by intros [= <-]].
    destruct (line_at _ _); simpl; [|done]. by intros [= <-]. }
  destruct (key =? KEY_RIGHT); [|by intros [= <-]].
  destruct (line_at _ _) as [ln|]; simpl; [|done].
  destruct (col E <? strlen ln); [by intros [= <-]|].
  destruct (row E <? numlines E - 1); by intros [= <-].
Qed.

Lemma move_cursor_only_moves_witness :
  editor_move_cursor KEY_LEFT doc_ab_cd = Some (doc [str "ab"; str "cd"] 0 2) ∧
  lines (doc [str "ab"; str "cd"] 0 2) = lines doc_ab_cd.
Proof.
  split; [reflexivity|].
  apply (move_cursor_only_moves KEY_LEFT doc_ab_cd). reflexivity.
Defined.




(** ** Loading *)

Lemma no_lf_app l1 l2 : no_lf (l1 ++ l2) = no_lf l1 && no_lf l2.
Proof. unfold no_lf. apply forallb_app. Qed.

Lemma no_lf_cstr buf : no_lf buf = true → no_lf (cstr buf) = true.
Proof.
  induction buf as [|c buf IH]; simpl; [done|].
  intros [Hc Hb]%andb_true_iff. destruct (Ascii.eqb c NUL); [done|].
  simpl. by rewrite Hc, IH.
Qed.

(** A stream is some lines ended by LF and a rest without LF; [getline]
    hands them out one by one. *)
Lemma getlines_shape fp :
  ∃ bodies rest,
    Forall (λ l, no_lf l = true) bodies ∧ no_lf rest = true ∧
    fp = file_image bodies ++ rest ∧
    getlines fp = map (λ l, l ++ [LF]) bodies ++
                  match rest with [] => [] | _ => [rest] end.
Proof.
  induction fp as [|c fp (bodies & rest & Hb & Hr & Hfp & Hg)].
  { by exists [], []. }
  simpl. destruct (Ascii.eqb c LF) eqn:Hc.
  - apply Ascii.eqb_eq in Hc as ->.
    exists ([] :: bodies), rest. repeat split; try done.
    + by apply Forall_cons.
    + by rewrite file_image_cons, Hfp.
    + by rewrite Hg.
  - destruct bodies as [|b bodies].
    + exists [], (c :: rest). simpl in *. rewrite Hc, Hr. repeat split; try done.
      * by rewrite Hfp.
      * rewrite Hg. by destruct rest.
    + exists ((c :: b) :: bodies), rest.
      apply Forall_cons in Hb as [Hb0 Hb]. repeat split; try done.
      * apply Forall_cons. split; [|done]. simpl. by rewrite Hc, Hb0.
      * rewrite file_image_cons in *. by rewrite Hfp.
      * by rewrite Hg.
Qed.

Lemma no_nul_file_image ls :
  no_nul (file_image ls) = true → Forall (λ l, no_nul l = true) ls.
Proof.
  induction ls as [|l ls IH]; [done|].
  rewrite file_image_cons, !no_nul_app. simpl.
  intros [Hl Hls]%andb_true_iff. apply Forall_cons. split; [done|by apply IH].
Qed.

Lemma strip_eol_plain l c :
  c ≠ LF → c ≠ CR → strip_eol (l ++ [c]) = l ++ [c].
Proof.
  intros H1%Ascii.eqb_neq H2%Ascii.eqb_neq. by rewrite strip_eol_last, H1, H2.
Qed.

Lemma load_loop_all_lf bufs : ∀ E,
  Forall (λ buf, no_lf (strdup (strip_eol buf)) = true) bufs →
  lf_free E = true →
  lf_free (foldl (λ E' buf, editor_insert_line (numlines E') (strip_eol buf) E')
                 E bufs) = true.
Proof.
  unfold lf_free. intros E Hb HE. rewrite load_loop_lines, forallb_app, HE.
  simpl. apply forallb_forall. intros l [buf [<- Hin]]%in_map_iff.
  rewrite Forall_forall in Hb. apply Hb. by apply list_elem_of_In.
Qed.

Lemma loaded_line_no_lf body :
  no_lf body = true →
  no_lf (strdup (strip_eol (body ++ [LF]))) = true ∧
  no_lf (strdup (strip_eol body)) = true.
Proof.
  intros Hb. split.
  - rewrite strip_eol_last. simpl. apply no_lf_cstr.
    by rewrite no_lf_app, Hb.
  - destruct body as [|c body _] using rev_ind; [done|].
    rewrite no_lf_app in Hb. apply andb_true_iff in Hb as [Hb Hc].
    rewrite strip_eol_last.
    destruct (Ascii.eqb c LF || Ascii.eqb c CR); apply no_lf_cstr;
      rewrite no_lf_app, Hb; [done|by rewrite Hc].
Qed.

Lemma getlines_loaded_no_lf fp :
  Forall (λ buf, no_lf (strdup (strip_eol buf)) = true) (getlines fp).
Proof.
  destruct (getlines_shape fp) as (bodies & rest & Hb & Hr & _ & ->).
  apply Forall_app. split.
  - apply Forall_map. eapply Forall_impl; [exact Hb|].
    intros l Hl. exact (proj1 (loaded_line_no_lf l Hl)).
  - destruct rest as [|c rest]; [done|]. apply Forall_singleton.
    exact (proj2 (loaded_line_no_lf (c :: rest) Hr)).
Qed.

Lemma init_lf_free name W : lf_free (editor_init name W).1 = true.
Proof.
  unfold editor_init. destruct name as [f|]; [|done].
  unfold editor_load_file. destruct (disk W f) as [| |data]; [done|done|].
  simpl.
  pose proof (load_loop_all_lf (getlines data)
                (set_filename (Some f)
                   (mkEditorState [] 0 0 0 0 (maxy W - 3) (maxx W) None false))
                (getlines_loaded_no_lf data) eq_refl) as Hlf.
  revert Hlf.
  generalize (foldl
      (λ E' buf, editor_insert_line (numlines E') (strip_eol buf) E')
      (set_filename (Some f)
         (mkEditorState [] 0 0 0 0 (maxy W - 3) (maxx W) None false))
      (getlines data)).
  intros E1 Hlf. destruct (numlines E1 =? 0); [|done].
  unfold lf_free, editor_insert_line in *.
  destruct (_ || _); [done|]. simpl. exact Hlf.
Qed.

Lemma load_loop_frame bufs : ∀ E,
  topline (foldl (λ E' buf, editor_insert_line (numlines E') (strip_eol buf) E')
                 E bufs) = topline E ∧
  leftcol (foldl (λ E' buf, editor_insert_line (numlines E') (strip_eol buf) E')
                 E bufs) = leftcol E ∧
  screenrows (foldl (λ E' buf, editor_insert_line (numlines E') (strip_eol buf) E')
                    E bufs) = screenrows E ∧
  screencols (foldl (λ E' buf, editor_insert_line (numlines E') (strip_eol buf) E')
                    E bufs) = screencols E ∧
  filename (foldl (λ E' buf, editor_insert_line (numlines E') (strip_eol buf) E')
                  E bufs) = filename E.
Proof.
  induction bufs as [|buf bufs IH]; intros E; simpl; [done|].
  destruct (IH (editor_insert_line (numlines E) (strip_eol buf) E))
    as (-> & -> & -> & -> & ->).
  unfold editor_insert_line. by destruct (_ || _).
Qed.

Lemma init_frame name W :
  row (editor_init name W).1 = 0 ∧ col (editor_init name W).1 = 0 ∧
  topline (editor_init name W).1 = 0 ∧ leftcol (editor_init name W).1 = 0 ∧
  screenrows (editor_init name W).1 = maxy W - 3 ∧
  screencols (editor_init name W).1 = maxx W ∧
  filename (editor_init name W).1 = name.
Proof.
  unfold editor_init. destruct name as [f|]; [|done].
  unfold editor_load_file. destruct (disk W f) as [| |data]; [done|done|].
  simpl.
  pose proof (load_loop_cursor (getlines data)
                (set_filename (Some f)
                   (mkEditorState [] 0 0 0 0 (maxy W - 3) (maxx W) None false)))
    as [Hr Hc].
  pose proof (load_loop_frame (getlines data)
                (set_filename (Some f)
                   (mkEditorState [] 0 0 0 0 (maxy W - 3) (maxx W) None false)))
    as (Ht & Hlc & Hsr & Hsc & Hf).
  simpl in Hr, Hc, Ht, Hlc, Hsr, Hsc, Hf. revert Hr Hc Ht Hlc Hsr Hsc Hf.
  generalize (foldl
      (λ E' buf, editor_insert_line (numlines E') (strip_eol buf) E')
      (set_filename (Some f)
         (mkEditorState [] 0 0 0 0 (maxy W - 3) (maxx W) None false))
      (getlines data)).
  intros E1 Hr Hc Ht Hlc Hsr Hsc Hf.
  destruct (numlines E1 =? 0); [|done].
  unfold editor_insert_line. by destruct (_ || _).
Qed.

Lemma getlines_no_lf rest :
  no_lf rest = true →
  getlines rest = match rest with [] => [] | _ => [rest] end.
Proof.
  induction rest as [|c rest IH]; simpl; [done|].
  intros [Hc Hr]%andb_true_iff. apply negb_true_iff in Hc. rewrite Hc.
  rewrite IH by done. by destruct rest.
Qed.

Lemma getlines_image_rest ls rest :
  Forall (λ l, no_lf l = true) ls → no_lf rest = true →
  getlines (file_image ls ++ rest) =
  map (λ l, l ++ [LF]) ls ++ match rest with [] => [] | _ => [rest] end.
Proof.
  intros Hls Hr. induction Hls as [|l ls Hl _ IH]; simpl.
  - by apply getlines_no_lf.
  - rewrite file_image_cons. simpl. rewrite <- !app_assoc. simpl.
    by rewrite getlines_line, IH.
Qed.

Lemma file_image_app ls1 ls2 :
  file_image (ls1 ++ ls2) = file_image ls1 ++ file_image ls2.
Proof. unfold file_image. by rewrite map_app, concat_app. Qed.

Lemma load_line_plain l :
  no_nul l = true → (∀ body, l ≠ body ++ [LF]) → (∀ body, l ≠ body ++ [CR]) →
  strdup (strip_eol l) = l.
Proof.
  intros Hn Hlf Hcr. destruct l as [|c l _] using rev_ind; [done|].
  rewrite strip_eol_plain.
  - by apply cstr_id.
  - intros ->. by apply (Hlf l).
  - intros ->. by apply (Hcr l).
Qed.

(** X9.  Opening a file free of NUL and saving it again.  A file that is
    not empty and whose every line ends with a line feed keeps its bytes.
    A last line without line feed (and without a trailing carriage return)
    is loaded as the last line and gets its line feed on saving.  The empty
    file is loaded as one empty line and saved as a single line feed: 0
    bytes become 1. *)
Theorem load_then_save f W ls rest :
  disk W f = File (file_image ls ++ rest) →
  no_nul (file_image ls ++ rest) = true →
  Forall (λ l, no_lf l = true) ls → no_lf rest = true →
  (∀ body, rest ≠ body ++ [CR]) →
  lines (editor_init (Some f) W).1 =
    match ls, rest with
    | [], [] => [[]]
    | _, [] => ls
    | _, _ => ls ++ [rest]
    end ∧
  ∀ Wd, disk Wd f ≠ Denied →
        strlen (file_image ls ++ rest) + 1 ≤ room Wd →
        disk (editor_save_file (editor_init (Some f) W).1 Wd).2 f =
        File match ls, rest with
             | [], [] => [LF]
             | _, [] => file_image ls
             | _, _ => file_image ls ++ rest ++ [LF]
             end.
Proof.
  intros Hd Hnul Hls Hr Hcr.
  rewrite no_nul_app in Hnul. apply andb_true_iff in Hnul as [Hn1 Hn2].
  apply no_nul_file_image in Hn1.
  set (doc := ls ++ match rest with [] => [] | _ => [rest] end).
  assert (map (λ buf, strdup (strip_eol buf))
            (map (λ l, l ++ [LF]) ls ++
             match rest with [] => [] | _ => [rest] end) = doc) as Hmap.
  { unfold doc. rewrite map_app, map_load_image by done. f_equal.
    destruct rest as [|c rest]; [done|]. simpl. f_equal.
    apply load_line_plain; [done| |done].
    intros body Hb. rewrite Hb, no_lf_app in Hr. simpl in Hr.
    by rewrite andb_false_r in Hr. }
  assert (lines (editor_init (Some f) W).1 =
          match doc with [] => [[]] | _ => doc end) as Hlines.
  { unfold editor_init.
    destruct (editor_load_file _ _ _) as [E1 W1] eqn:Hload. simpl.
    change E1 with (E1, W1).1. rewrite <- Hload.
    rewrite (load_file_lines _ _ _ _ Hd) by done.
    rewrite getlines_image_rest by done. rewrite <- Hmap.
    by destruct (map (λ l, l ++ [LF]) ls ++ _). }
  assert (file_image (match doc with [] => [[]] | _ => doc end) =
          match ls, rest with
          | [], [] => [LF]
          | _, [] => file_image ls
          | _, _ => file_image ls ++ rest ++ [LF]
          end) as Himage.
  { unfold doc. destruct ls as [|l ls'], rest as [|c r]; simpl; try done.
    - unfold file_image. simpl. by rewrite app_nil_r.
    - by rewrite app_nil_r.
    - change (l :: ls' ++ [c :: r]) with ((l :: ls') ++ [c :: r]).
      rewrite file_image_app. f_equal.
      unfold file_image. simpl. by rewrite app_nil_r. }
  split.
  { rewrite Hlines. unfold doc.
    destruct ls as [|l ls'], rest as [|c r]; simpl; try done.
    by rewrite app_nil_r. }
  intros Wd Hden Hroom.
  destruct (init_frame (Some f) W) as (_ & _ & _ & _ & _ & _ & Hf).
  assert (save_name (editor_init (Some f) W).1 = f) as Hname
    by (unfold save_name; by rewrite Hf).
  pose proof (save_file_disk (editor_init (Some f) W).1 Wd) as Hsave.
  rewrite Hname, Hlines, Himage in Hsave. apply Hsave; [done|].
  unfold strlen in *. rewrite !length_app in Hroom.
  destruct ls as [|l ls'], rest as [|c r]; simpl in *;
    rewrite ?length_app, ?app_nil_r in *; simpl in *;
    rewrite ?length_app in *; simpl in *; lia.
Qed.

Lemma load_then_save_witness :
  lines (editor_init (Some "a.txt"%string)
           (world_with_file (str "ab" ++ [LF] ++ str "cd"))).1
  = [str "ab"; str "cd"] ∧
  disk (editor_save_file
          (editor_init (Some "a.txt"%string)
             (world_with_file (str "ab" ++ [LF] ++ str "cd"))).1
          (world_with_file (str "ab" ++ [LF] ++ str "cd"))).2 "a.txt"
  = File (str "ab" ++ [LF] ++ str "cd" ++ [LF]).
Proof.
  destruct (load_then_save "a.txt" (world_with_file (str "ab" ++ [LF] ++ str "cd"))
              [str "ab"] (str "cd")) as [H1 H2].
  - reflexivity.
  - reflexivity.
  - by repeat constructor.
  - reflexivity.
  - intros body Hb. apply (f_equal (λ l, last l)) in Hb.
    rewrite last_snoc in Hb. vm_compute in Hb. discriminate.
  - split; [exact H1|]. apply H2; [discriminate|vm_compute; discriminate].
Defined.

(** The empty file: one empty line in the editor, one line feed on the
    disk after the save. *)
Example load_then_save_empty_file :
  lines (editor_init (Some "a.txt"%string) (world_with_file [])).1 = [[]] ∧
  disk (editor_save_file
          (editor_init (Some "a.txt"%string) (world_with_file [])).1
          (world_with_file [])).2 "a.txt" = File [LF].
Proof. split; reflexivity. Qed.

(** X10.  After [editor_init] the status line shows the help text, whatever
    happened: the error text for a file that could not be opened is written
    first and at once overwritten.  The input and the disk are untouched.
    With no name, a missing file, an unreadable file or an empty file the
    document is one empty line. *)
Theorem init_status_and_empty_document name W :
  shown (editor_init name W).2 =
    "HELP: Ctrl+O = Save | Ctrl+X = Exit"%string ::
    match name with
    | Some f => match disk W f with
                | Denied => ["Error opening file."%string]
                | _ => []
                end
    | None => []
    end ++ shown W ∧
  keys (editor_init name W).2 = keys W ∧
  disk (editor_init name W).2 = disk W ∧
  room (editor_init name W).2 = room W ∧
  (match name with
   | None => True
   | Some f => disk W f = Missing ∨ disk W f = Denied ∨ disk W f = File []
   end → lines (editor_init name W).1 = [[]]).
Proof.
  unfold editor_init. destruct name as [f|]; [|done].
  unfold editor_load_file. destruct (disk W f) as [| |data]; simpl.
  - done.
  - done.
  - repeat split. intros [?|[?|[= ->]]]; done.
Qed.

(** X11.  Whatever the argument and whatever bytes the file holds, the
    state [editor_init] builds is valid and no line of it holds a NUL or a
    line feed; the cursor is at (0,0), the window at the top left, the
    screen is the terminal less three rows, and the file name is the
    argument. *)
Theorem fresh_session_state name W :
  valid (editor_init name W).1 = true ∧
  lf_free (editor_init name W).1 = true ∧
  row (editor_init name W).1 = 0 ∧ col (editor_init name W).1 = 0 ∧
  topline (editor_init name W).1 = 0 ∧ leftcol (editor_init name W).1 = 0 ∧
  screenrows (editor_init name W).1 = maxy W - 3 ∧
  screencols (editor_init name W).1 = maxx W ∧
  filename (editor_init name W).1 = name.
Proof.
  split; [apply init_valid|]. split; [apply init_lf_free|]. apply init_frame.
Qed.

(** ** A session: lines stay free of line feeds *)













(** ** Keys *)

Lemma insert_char_keeps_modified ch E E' :
  editor_insert_char ch E = Some E' → modified E = true → modified E' = true.
Proof.
  unfold editor_insert_char. destruct (_ || _); [by intros [= <-]|].
  destruct (line_at _ _); simpl; [|done]. by intros [= <-].
Qed.

Lemma delete_char_keeps_modified E E' :
  editor_delete_char E = Some E' → modified E = true → modified E' = true.
Proof.
  unfold editor_delete_char. destruct (_ || _); [by intros [= <-]|].
  destruct (_ && _); [by intros [= <-]|].
  destruct (line_at E (row E)); simpl; [|done].
  destruct (0 <? col E).
  - destruct (_ <? _); [done|]. by intros [= <-].
  - destruct (line_at E (row E - 1)); simpl; [|done]. by intros [= <-].
Qed.

Lemma insert_newline_keeps_modified E E' :
  editor_insert_newline E = Some E' → modified E = true → modified E' = true.
Proof.
  unfold editor_insert_newline, clamp_col. destruct (_ <? _).
  - destruct (line_at _ _); simpl; [|done]. intros [= <-].
    by destruct (_ <? _).
  - intros [= <-] Hm. simpl. by apply insert_line_keeps_modified.
Qed.

(** X13.  Once the document is marked modified, no key but a save that
    opens its file clears the mark: after any other key, and after a save
    whose file cannot be opened, a session that goes on is still marked
    modified. *)
Theorem modified_until_saved c E W E' W' :
  modified E = true →
  editor_process_key c E W = Some (Running E' W') →
  c ≠ 15 ∨ disk W (save_name E) = Denied →
  modified E' = true.
Proof.
  intros Hm Hkey Hc. revert Hkey. unfold editor_process_key.
  destruct (Z.eqb_spec c 24).
  { rewrite Hm. destruct (getch _) as [c2 W2].
    destruct (c2 =? 24); simpl; [done|]. by intros [= <- _]. }
  destruct (Z.eqb_spec c 15) as [H15|H15].
  { destruct Hc as [?|Hd]; [done|].
    rewrite (save_file_denied _ _ Hd). by intros [= <- _]. }
  destruct (_ || _).
  { destruct (editor_move_cursor c E) as [E1|] eqn:Hmv; simpl; [|done].
    intros [= <- _]. destruct (move_cursor_frame _ _ _ Hmv) as (_ & -> & _).
    done. }
  destruct (_ || _).
  { destruct (editor_delete_char E) as [E1|] eqn:Hdel; simpl; [|done].
    intros [= <- _]. by eapply delete_char_keeps_modified. }
  destruct (_ || _).
  { destruct (editor_insert_newline E) as [E1|] eqn:Hnl; simpl; [|done].
    intros [= <- _]. by eapply insert_newline_keeps_modified. }
  destruct (isprint c).
  { destruct (editor_insert_char _ E) as [E1|] eqn:Hins; simpl; [|done].
    intros [= <- _]. by eapply insert_char_keeps_modified. }
  by intros [= <- _].
Qed.

Lemma modified_until_saved_witness :
  modified doc_hello = true ∧
  editor_process_key KEY_LEFT doc_hello (world [] 0)
    = Some (Running (doc [str "hello"] 0 4) (world [] 0)) ∧
  modified (doc [str "hello"] 0 4) = true.
Proof.
  split; [reflexivity|]. split; [reflexivity|].
  apply (modified_until_saved KEY_LEFT doc_hello (world [] 0)
           (doc [str "hello"] 0 4) (world [] 0));
    [reflexivity|reflexivity|left; discriminate].
Defined.

Lemma scroll_modified E : modified (editor_scroll E) = modified E.
Proof. by destruct (scroll_frame E) as (_ & _ & _ & ? & _). Qed.

Lemma scroll_save_name E : save_name (editor_scroll E) = save_name E.
Proof.
  unfold save_name. by destruct (scroll_frame E) as (_ & _ & _ & _ & ->).
Qed.

Lemma process_key_save E W :
  editor_process_key 15 E W =
  Some (Running (editor_save_file E W).1.2 (editor_save_file E W).2).
Proof.
  unfold editor_process_key. simpl.
  by destruct (editor_save_file E W) as [[? ?] ?].
Qed.

(** X14.  A save that opens its file makes the next exit trigger final: on
    the keys Ctrl+O, Ctrl+X the loop of [main] ends in two turns, shows the
    success message and no prompt, and reads no third key - whether the
    document was marked modified or not.  On an unmodified document the
    exit trigger alone ends the program without reading a key. *)
Theorem save_then_exit E W ks :
  keys W = 15 :: 24 :: ks → disk W (save_name E) ≠ Denied →
  (∃ W', main_loop 2 E W = Some (Exited W') ∧ keys W' = ks ∧
         shown W' = "File saved successfully!"%string :: shown W) ∧
  (∀ E0 W0, modified E0 = false →
            editor_process_key 24 E0 W0 = Some (Exited W0)).
Proof.
  intros Hk Hd. split.
  - simpl. unfold main_turn, editor_refresh_screen, getch. rewrite Hk. simpl.
    pose proof (save_file_opened (editor_scroll E) (set_keys (24 :: ks) W)) as Hs.
    rewrite scroll_save_name in Hs. specialize (Hs Hd).
    rewrite process_key_save, Hs. simpl.
    destruct (write_lines_frame (save_name E) (lines (editor_scroll E))
                (set_file (save_name E) (File []) (set_keys (24 :: ks) W)))
      as [Hkeys Hshown].
    rewrite Hkeys. simpl.
    unfold editor_process_key. simpl. rewrite scroll_modified. simpl.
    eexists. split; [done|]. simpl. by rewrite Hshown.
  - intros E0 W0 Hm. unfold editor_process_key. simpl. by rewrite Hm.
Qed.

Lemma save_then_exit_witness :
  keys (world [15; 24; 65] 100) = 15 :: 24 :: [65] ∧
  disk (world [15; 24; 65] 100) (save_name doc_hello) ≠ Denied ∧
  ∃ W', main_loop 2 doc_hello (world [15; 24; 65] 100) = Some (Exited W') ∧
        keys W' = [65] ∧
        shown W' = "File saved successfully!"%string
                   :: shown (world [15; 24; 65] 100).
Proof.
  split; [reflexivity|]. split; [discriminate|].
  apply (save_then_exit doc_hello (world [15; 24; 65] 100) [65]);
    [reflexivity|discriminate].
Defined.





(** ** Scrolling *)




Lemma wrap_in_range z : -2147483648 ≤ Int32.wrap z ≤ 2147483647.
Proof.
  unfold Int32.wrap, Int32.INT_MIN.
  pose proof (Z.mod_pos_bound (z - -2147483648) 4294967296). lia.
Qed.


Lemma axis_in_range p o n :
  -2147483648 ≤ p ≤ 2147483647 → -2147483648 ≤ o ≤ 2147483647 →
  -2147483648 ≤ Int32.axis p o n ≤ 2147483647.
Proof.
  intros Hp Ho. unfold Int32.axis, Int32.add.
  destruct (p <? o); destruct (_ <=? p);
    try apply wrap_in_range; assumption.
Qed.






(** ** Keys the program does not know *)



(** ** Painting *)

Lemma drop_lookup_cons {A} (l : list A) k x :
  l !! k = Some x → drop k l = x :: drop (S k) l.
Proof.
  revert k. induction l as [|y l IH]; intros [|k]; simpl; try done.
  - by intros [= ->].
  - apply IH.
Qed.











(** ** The status bar *)

Lemma status_at_lookup full i :
  0 ≤ i < 79 → status_at full i = full !! Z.to_nat i.
Proof. intros H. unfold status_at. by zdec. Qed.

Lemma status_run_prefix full n : ∀ from,
  0 ≤ from → from + Z.of_nat n ≤ 79 → from + Z.of_nat n ≤ strlen full →
  addch_run (status_at full) from n = Some (take n (drop (Z.to_nat from) full)).
Proof.
  induction n as [|n IH]; intros from H0 H79 Hn; simpl; [done|].
  rewrite status_at_lookup by lia. unfold strlen in *.
  assert (is_Some (full !! Z.to_nat from)) as [x Hx]
    by (apply lookup_lt_is_Some; lia).
  rewrite Hx. simpl.
  rewrite IH by lia. simpl.
  rewrite (drop_lookup_cons _ _ _ Hx). simpl.
  by replace (Z.to_nat (from + 1)) with (S (Z.to_nat from)) by lia.
Qed.

Lemma status_run_overrun full n : ∀ from,
  80 < from + Z.of_nat n → (0 < n)%nat → from ≤ 80 →
  addch_run (status_at full) from n = None.
Proof.
  induction n as [|n IH]; intros from Hover Hpos Hfrom; [lia|]. simpl.
  destruct (status_at full from) as [c|] eqn:Hc; simpl; [|done].
  assert (from < 80) as Hlt.
  { unfold status_at in Hc. destruct (Z.leb_spec 80 from); [done|lia]. }
  rewrite IH; [done|lia|lia|lia].
Qed.

(** X20.  The status bar.  When the text "File: name (modified)" or the
    screen is at most 79 wide, the bar is that text cut to the screen width
    and filled with blanks to exactly [screencols] cells.  When both are
    wider than 80 the loop reads [status] beyond its 80 bytes: the bar
    cannot be painted without a stray read. *)
Theorem status_bar_cells E :
  (Z.min (strlen (status_text E)) (screencols E) ≤ 79 →
     ∃ cells,
       editor_draw_status_bar E = Some (cells, "^X Exit  ^O Save"%string) ∧
       cells = take (Z.to_nat (screencols E)) (status_text E) ++
               replicate (Z.to_nat (screencols E - strlen (status_text E)))
                         " "%char ∧
       (0 ≤ screencols E → Z.of_nat (length cells) = screencols E)) ∧
  (80 < strlen (status_text E) → 80 < screencols E →
     editor_draw_status_bar E = None).
Proof.
  unfold editor_draw_status_bar. set (full := status_text E).
  set (len := strlen full). split.
  - intros Hmin.
    destruct (Z.ltb_spec (screencols E) len) as [Hlt|Hge].
    + rewrite status_run_prefix by (unfold len, strlen in *; lia).
      simpl. eexists. split; [done|].
      replace (Z.to_nat (screencols E - screencols E)) with 0%nat by lia.
      replace (Z.to_nat (screencols E - len)) with 0%nat by lia.
      change (drop (Z.to_nat 0) full) with full.
      split; [done|]. intros Hsc. simpl.
      rewrite app_nil_r, length_take. unfold len, strlen in *. lia.
    + rewrite status_run_prefix by (unfold len, strlen in *; lia).
      simpl. eexists. split; [done|].
      change (drop (Z.to_nat 0) full) with full.
      rewrite !take_ge by (unfold len, strlen in *; lia).
      split; [done|]. intros Hsc.
      rewrite length_app, length_replicate. unfold len, strlen in *. lia.
  - intros Hlen Hsc.
    destruct (Z.ltb_spec (screencols E) len);
      rewrite status_run_overrun; try done; lia.
Qed.

(** The status text of a file with a long name is wider than the array. *)
Example status_bar_overrun :
  editor_draw_status_bar
    (mkEditorState [[]] 0 0 0 0 37 120
       (Some "a-directory-with-a-long-name/and-a-file-with-a-long-name-in-it.txt"%string)
       true) = None.
Proof. reflexivity. Qed.

(** ** Saving touches one file *)

Lemma fprintf_line_other name l W n :
  n ≠ name → disk (fprintf_line name l W).2 n = disk W n.
Proof.
  intros Hn. unfold fprintf_line. destruct (disk W name); [done|done|].
  destruct (_ <=? _); [|done]. simpl.
  apply String.eqb_neq in Hn. by rewrite Hn.
Qed.

Lemma write_lines_other name ls n : ∀ W,
  n ≠ name →
  disk (foldl (λ W' l, (fprintf_line name l W').2) W ls) n = disk W n.
Proof.
  induction ls as [|l ls IH]; intros W Hn; simpl; [done|].
  rewrite IH by done. by apply fprintf_line_other.
Qed.

(** X21.  A save touches the file it names and nothing else: every other
    file of the disk, the pending input, the lines, the cursor, the scroll
    offsets and the screen size are as before; the editor remembers the
    name it saved under. *)
Theorem save_touches_only_its_file E W :
  (∀ n, n ≠ save_name E → disk (editor_save_file E W).2 n = disk W n) ∧
  keys (editor_save_file E W).2 = keys W ∧
  lines (editor_save_file E W).1.2 = lines E ∧
  row (editor_save_file E W).1.2 = row E ∧
  col (editor_save_file E W).1.2 = col E ∧
  topline (editor_save_file E W).1.2 = topline E ∧
  leftcol (editor_save_file E W).1.2 = leftcol E ∧
  screenrows (editor_save_file E W).1.2 = screenrows E ∧
  screencols (editor_save_file E W).1.2 = screencols E ∧
  filename (editor_save_file E W).1.2 = Some (save_name E).
Proof.
  assert (disk W (save_name E) = Denied ∨ disk W (save_name E) ≠ Denied)
    as [Hd|Hd] by (destruct (disk W (save_name E)); auto).
  - rewrite (save_file_denied _ _ Hd). simpl. repeat split; done.
  - rewrite (save_file_opened _ _ Hd). simpl. split; [|split].
    + intros n Hn. rewrite write_lines_other by done. simpl.
      apply String.eqb_neq in Hn. by rewrite Hn.
    + by destruct (write_lines_frame (save_name E) (lines E)
                     (set_file (save_name E) (File []) W)) as [-> _].
    + repeat split; done.
Qed.

(** ** The window during a session *)















(** A fresh session on a terminal of 120 columns, opened on a name of 66
    bytes: the first refresh already strays. *)
Example wide_terminal_long_name_strays :
  main_loop_painted 1
    (editor_init
       (Some "a-directory-with-a-long-name/and-a-file-with-a-long-name-in-it.txt"%string)
       (mkWorld [] [] (λ _, Missing) 100 40 120)).1
    (editor_init
       (Some "a-directory-with-a-long-name/and-a-file-with-a-long-name-in-it.txt"%string)
       (mkWorld [] [] (λ _, Missing) 100 40 120)).2
  = None.
Proof. reflexivity. Qed.


